(** * Workout plan generator (app/main.py): shallow embedding and properties

    The generator of [app/main.py] is embedded as executable Rocq
    functions.  Python [int]s are [Z], [str]s are [string], the
    [last_trained] dictionary is a [gmap string Z], the catalog is a list
    of records and the archetype table a [gmap].  Exceptions ([KeyError],
    [IndexError], a pydantic validation error) are [None] in the [option]
    monad.  The global random generator is a stream [rnd : nat -> nat]
    together with the number of draws made so far; [random.choice] on a
    pool takes the element at position [rnd k mod len(pool)]. *)

From stdpp Require Import gmap strings list list_numbers sorting fin_maps.
From Stdlib Require Import ZArith Lia.

Local Open Scope string_scope.
Local Open Scope list_scope.
Local Open Scope stdpp_scope.
Local Open Scope Z_scope.

(** ** Static data *)

(** An entry of [EXERCISES]: keys "id", "name", "group", "equipment". *)
Record Exercise := {
  ex_id : string;
  ex_name : string;
  ex_group : string;
  ex_equipment : string
}.

Definition EXERCISES : list Exercise := [
  {| ex_id := "pushup";    ex_name := "Push-ups";           ex_group := "chest";     ex_equipment := "bodyweight" |};
  {| ex_id := "ohp-db";    ex_name := "DB Shoulder Press";  ex_group := "shoulders"; ex_equipment := "dumbbells" |};
  {| ex_id := "bench";     ex_name := "Bench Press";        ex_group := "chest";     ex_equipment := "gym" |};
  {| ex_id := "row";       ex_name := "DB Row";             ex_group := "back";      ex_equipment := "dumbbells" |};
  {| ex_id := "pullup";    ex_name := "Pull-ups";           ex_group := "back";      ex_equipment := "bodyweight" |};
  {| ex_id := "squat-bw";  ex_name := "Bodyweight Squat";   ex_group := "legs";      ex_equipment := "bodyweight" |};
  {| ex_id := "goblet";    ex_name := "Goblet Squat";       ex_group := "legs";      ex_equipment := "dumbbells" |};
  {| ex_id := "backsquat"; ex_name := "Back Squat";         ex_group := "legs";      ex_equipment := "gym" |};
  {| ex_id := "plank";     ex_name := "Plank";              ex_group := "core";      ex_equipment := "bodyweight" |};
  {| ex_id := "hkr";       ex_name := "Hanging Knee Raise"; ex_group := "core";      ex_equipment := "gym" |}
].

(** A value of [CHAR_ARCH]: keys "style", "template", "sets", "reps". *)
Record Archetype := {
  arch_style : string;
  arch_template : list string;
  arch_sets : Z;
  arch_reps : Z
}.

Definition goku : Archetype :=
  {| arch_style := "power"; arch_template := ["push"; "pull"; "legs"; "full"; "full"];
     arch_sets := 4; arch_reps := 5 |}.
Definition luffy : Archetype :=
  {| arch_style := "endurance"; arch_template := ["full"; "full"; "legs"; "full"; "full"];
     arch_sets := 3; arch_reps := 12 |}.
Definition asta : Archetype :=
  {| arch_style := "strength"; arch_template := ["push"; "pull"; "legs"; "push"; "pull"];
     arch_sets := 4; arch_reps := 6 |}.
Definition saitama : Archetype :=
  {| arch_style := "full-body"; arch_template := ["full"; "full"; "full"];
     arch_sets := 3; arch_reps := 10 |}.

Definition CHAR_ARCH : gmap string Archetype :=
  <["goku" := goku]> (<["luffy" := luffy]> (<["asta" := asta]> (<["saitama" := saitama]> ∅))).

(** [DayFocus = Literal["push", "pull", "legs", "full"]] *)
Definition DayFocus : list string := ["push"; "pull"; "legs"; "full"].

(** ** Response models *)

Record ExerciseItem := {
  exercise_id : string;
  sets : Z;
  reps : Z
}.

Record DayPlan := {
  week : Z;
  day_index : Z;
  focus : string;
  items : list ExerciseItem
}.

(** The [DayPlan(...)] constructor call: pydantic rejects a [focus] outside
    the [DayFocus] literal. *)
Definition mkDayPlan (w d : Z) (f : string) (its : list ExerciseItem) : option DayPlan :=
  if decide (f ∈ DayFocus)
  then Some {| week := w; day_index := d; focus := f; items := its |}
  else None.

(** ** Python list primitives used by the generator *)

(** [l[:n]] *)
Definition py_slice_to {A} (l : list A) (n : Z) : list A :=
  if decide (n < 0) then take (Z.to_nat (Z.of_nat (length l) + n)) l
  else take (Z.to_nat n) l.

(** [[x] * n] *)
Definition py_repeat {A} (x : A) (n : Z) : list A := replicate (Z.to_nat n) x.

(** [range(a, b)] *)
Definition py_range (a b : Z) : list Z := seqZ a (b - a).

(** [random.choice(pool)] at draw number [k] of the stream [rnd];
    [IndexError] on an empty pool. *)
Definition random_choice {A} (rnd : nat → nat) (k : nat) (pool : list A) : option A :=
  pool !! (rnd k `mod` length pool)%nat.

(** [list.sort(key=...)] is a stable sort on the precomputed keys: an
    element is inserted in front of the first element whose key is not
    smaller, the elements being taken from the right. *)
Fixpoint insert_by_key (x : Z * string) (l : list (Z * string)) : list (Z * string) :=
  match l with
  | [] => [x]
  | y :: l' => if decide (x.1 ≤ y.1) then x :: y :: l' else y :: insert_by_key x l'
  end.

Definition sort_by_key (l : list (Z * string)) : list (Z * string) :=
  foldr insert_by_key [] l.

(** ** The generator object *)

Record WorkoutPlan := {
  character_id : string;
  days : Z;
  level : string;
  goal : string;
  equipment : string;
  last_trained : gmap string Z;
  template : list string
}.

(** [self.last_trained[g] = v] *)
Definition set_last_trained (g : string) (v : Z) (self : WorkoutPlan) : WorkoutPlan :=
  {| character_id := character_id self; days := days self; level := level self;
     goal := goal self; equipment := equipment self;
     last_trained := <[g := v]> (last_trained self);
     template := template self |}.

Definition _make_template (cid : string) (n : Z) : option (list string) :=
  match CHAR_ARCH !! cid with
  | Some pref =>
      let base := arch_template pref in
      if decide (n ≤ Z.of_nat (length base)) then Some (py_slice_to base n)
      else
        l ← last base;
        Some (base ++ py_repeat l (n - Z.of_nat (length base)))
  | None =>
      if decide (n ≤ 3) then Some ["full"; "full"; "full"]
      else if decide (n = 4) then Some ["push"; "legs"; "pull"; "full"]
      else if decide (n = 5) then Some ["push"; "pull"; "legs"; "full"; "full"]
      else Some ["push"; "pull"; "legs"; "push"; "pull"; "legs"]
  end.

Definition initial_last_trained : gmap string Z :=
  <["chest" := -999]> (<["back" := -999]> (<["legs" := -999]>
  (<["shoulders" := -999]> (<["arms" := -999]> (<["core" := -999]> ∅))))).

Definition __init__ (cid : string) (days_per_week : Z) (lvl gl eq : string)
  : option WorkoutPlan :=
  let n := Z.max 1 (Z.min 6 days_per_week) in
  t ← _make_template cid n;
  Some {| character_id := cid; days := n; level := lvl; goal := gl; equipment := eq;
          last_trained := initial_last_trained; template := t |}.

Definition _sets_reps (self : WorkoutPlan) : Z * Z :=
  let char := CHAR_ARCH !! character_id self in
  let base_sets :=
    match char with
    | Some a => arch_sets a
    | None => if decide (level self = "beginner") then 3 else 4
    end in
  let char_reps := arch_reps <$> char in
  let reps :=
    if decide (goal self = "strength") then
      match char_reps with None => 4 | Some r => Z.min r 6 end
    else if decide (goal self = "hypertrophy") then
      match char_reps with None => 8 | Some r => Z.max r 8 end
    else
      match char_reps with None => 10 | Some r => Z.max r 10 end in
  (base_sets, reps).

Definition _focus_groups (f : string) : list string :=
  if decide (f = "push") then ["chest"; "shoulders"; "core"]
  else if decide (f = "pull") then ["back"; "core"]
  else if decide (f = "legs") then ["legs"; "core"]
  else ["chest"; "back"; "legs"; "shoulders"; "core"].

(** The [for ex in EXERCISES] loop of [_filtered], [pool] being the
    accumulator. *)
Fixpoint filtered_loop (eq group : string) (exs pool : list Exercise) : list Exercise :=
  match exs with
  | [] => pool
  | ex :: rest =>
      if decide (ex_group ex ≠ group) then filtered_loop eq group rest pool
      else if decide (eq = "gym") then filtered_loop eq group rest (pool ++ [ex])
      else if decide (ex_equipment ex = eq ∨ ex_equipment ex = "bodyweight")
           then filtered_loop eq group rest (pool ++ [ex])
           else filtered_loop eq group rest pool
  end.

Definition _filtered (self : WorkoutPlan) (group : string) : list Exercise :=
  filtered_loop (equipment self) group EXERCISES [].

Arguments _filtered : simpl never.

(** [groups.sort(key=lambda g: self.last_trained[g])] *)
Definition sort_groups (self : WorkoutPlan) (groups : list string) : option (list string) :=
  keys ← mapM (λ g, last_trained self !! g) groups;
  Some ((sort_by_key (zip keys groups)).*2).

(** The [for g in groups] loop of [generate]; the state is the object
    (for [last_trained]), the day's [items] and the draw counter. *)
Fixpoint group_loop (rnd : nat → nat) (sts rps cur : Z) (groups : list string)
    (self : WorkoutPlan) (its : list ExerciseItem) (k : nat)
  : option (WorkoutPlan * list ExerciseItem * nat) :=
  match groups with
  | [] => Some (self, its, k)
  | g :: rest =>
      lastg ← last_trained self !! g;
      if decide (cur - lastg < 2) then group_loop rnd sts rps cur rest self its k
      else
        match _filtered self g with
        | [] => group_loop rnd sts rps cur rest self its k
        | pool =>
            choice ← random_choice rnd k pool;
            let its' := its ++ [{| exercise_id := ex_id choice; sets := sts; reps := rps |}] in
            let self' := set_last_trained g cur self in
            if decide (5 ≤ Z.of_nat (length its')) then Some (self', its', S k)
            else group_loop rnd sts rps cur rest self' its' (S k)
        end
  end.

(** Local state of [generate] between two days. *)
Record GenState := {
  gs_self : WorkoutPlan;
  gs_schedule : list DayPlan;
  gs_current_day_index : Z;
  gs_draws : nat
}.

(** Body of [for d, focus in enumerate(self.template)]. *)
Definition day_step (rnd : nat → nat) (sts rps w d : Z) (f : string) (st : GenState)
  : option GenState :=
  groups ← sort_groups (gs_self st) (_focus_groups f);
  '(self', its, k') ← group_loop rnd sts rps (gs_current_day_index st) groups
                        (gs_self st) [] (gs_draws st);
  dp ← mkDayPlan w d f its;
  Some {| gs_self := self'; gs_schedule := gs_schedule st ++ [dp];
          gs_current_day_index := gs_current_day_index st + 1; gs_draws := k' |}.

Fixpoint day_loop (rnd : nat → nat) (sts rps w d : Z) (tpl : list string) (st : GenState)
  : option GenState :=
  match tpl with
  | [] => Some st
  | f :: rest =>
      st' ← day_step rnd sts rps w d f st;
      day_loop rnd sts rps w (d + 1) rest st'
  end.

Fixpoint week_loop (rnd : nat → nat) (sts rps : Z) (ws : list Z) (st : GenState)
  : option GenState :=
  match ws with
  | [] => Some st
  | w :: rest =>
      st' ← day_loop rnd sts rps w 0 (template (gs_self st)) st;
      week_loop rnd sts rps rest st'
  end.

(** [WorkoutPlan.generate]: the schedule, with the mutated object and the
    position reached in the random stream. *)
Definition generate (self : WorkoutPlan) (weeks : Z) (rnd : nat → nat) (k : nat)
  : option (list DayPlan * WorkoutPlan * nat) :=
  let '(sts, rps) := _sets_reps self in
  st ← week_loop rnd sts rps (py_range 1 (weeks + 1))
         {| gs_self := self; gs_schedule := []; gs_current_day_index := 0; gs_draws := k |};
  Some (gs_schedule st, gs_self st, gs_draws st).

(** The core call of the specification: build the object, then generate. *)
Definition generate_schedule (cid : string) (days_per_week : Z) (lvl gl eq : string)
    (weeks : Z) (rnd : nat → nat) : option (list DayPlan) :=
  self ← __init__ cid days_per_week lvl gl eq;
  r ← generate self weeks rnd 0;
  Some r.1.1.

Record GenerateRequest := {
  req_character_id : string;
  req_days_per_week : Z;
  req_level : string;
  req_goal : string;
  req_equipment : string
}.

Record PlanResponse := {
  resp_weeks : Z;
  resp_schedule : list DayPlan
}.

(** The [/generate] endpoint. *)
Definition generate_plan (req : GenerateRequest) (rnd : nat → nat) : option PlanResponse :=
  gen ← __init__ (req_character_id req) (req_days_per_week req) (req_level req)
        (req_goal req) (req_equipment req);
  r ← generate gen 4 rnd 0;
  Some {| resp_weeks := 4; resp_schedule := r.1.1 |}.

(** ** Specification-side vocabulary *)

(** The catalog exercise an item refers to, and its muscle group. *)
Definition exercise_by_id (i : string) : option Exercise :=
  snd <$> list_find (λ ex, ex_id ex = i) EXERCISES.

Definition item_group (it : ExerciseItem) : option string :=
  ex_group <$> exercise_by_id (exercise_id it).

(** Group [g] is trained on the day [dp]: an item of [dp] is an exercise
    of that group. *)
Definition trained_on (dp : DayPlan) (g : string) : Prop :=
  Some g ∈ item_group <$> items dp.

(** The item appended for a chosen exercise. *)
Definition item_of (sts rps : Z) (ex : Exercise) : ExerciseItem :=
  {| exercise_id := ex_id ex; sets := sts; reps := rps |}.

(** Eligibility of a catalog exercise under the request's equipment. *)
Definition eligible (eq : string) (ex : Exercise) : Prop :=
  eq = "gym" ∨ ex_equipment ex = eq ∨ ex_equipment ex = "bodyweight".

#[global] Instance eligible_dec eq ex : Decision (eligible eq ex).
Proof. unfold eligible. apply _. Defined.

#[global] Instance trained_on_dec dp g : Decision (trained_on dp g).
Proof. unfold trained_on. apply _. Defined.

(** The groups a focus tag can reach. *)
Definition tracked_groups : list string := ["chest"; "back"; "legs"; "shoulders"; "core"].

(** Every group a day can ask for has an entry in [last_trained]. *)
Definition keys_ok (self : WorkoutPlan) : Prop :=
  Forall (λ g, is_Some (last_trained self !! g)) tracked_groups.

(** What [generate] needs of the object to run without an exception. *)
Definition well_formed (self : WorkoutPlan) : Prop :=
  keys_ok self ∧ Forall (λ f, f ∈ DayFocus) (template self).

(** The fields [generate] never assigns. *)
Definition same_config (a b : WorkoutPlan) : Prop :=
  character_id a = character_id b ∧ days a = days b ∧ level a = level b
  ∧ goal a = goal b ∧ equipment a = equipment b ∧ template a = template b.

(** The sets/reps policy in the words of the specification. *)
Definition spec_sets (cid lvl : string) : Z :=
  match CHAR_ARCH !! cid with
  | Some a => arch_sets a
  | None => if decide (lvl = "beginner") then 3 else 4
  end.

Definition spec_reps (cid gl : string) : Z :=
  let candidate := arch_reps <$> (CHAR_ARCH !! cid) in
  if decide (gl = "strength") then from_option (λ c, Z.min c 6) 4 candidate
  else if decide (gl = "hypertrophy") then from_option (λ c, Z.max c 8) 8 candidate
  else from_option (λ c, Z.max c 10) 10 candidate.

(** What one day of a schedule looks like: at most five items, one per
    group [gs] of the day's focus, each an eligible catalog exercise of
    its group carrying the plan's sets and reps. *)
Definition day_ok (sts rps : Z) (eq : string) (dp : DayPlan) : Prop :=
  focus dp ∈ DayFocus
  ∧ (length (items dp) ≤ 5)%nat
  ∧ ∃ gs exs,
      items dp = item_of sts rps <$> exs
      ∧ NoDup gs
      ∧ gs ⊆ _focus_groups (focus dp)
      ∧ Forall2 (λ g ex, ex ∈ EXERCISES ∧ ex_group ex = g ∧ eligible eq ex) gs exs.

(** The invariant of [generate] between two days, [self0] being the
    object at the call. *)
Definition gen_inv (sts rps : Z) (self0 : WorkoutPlan) (st : GenState) : Prop :=
  keys_ok (gs_self st)
  ∧ same_config self0 (gs_self st)
  ∧ gs_current_day_index st = Z.of_nat (length (gs_schedule st))
  ∧ Forall (day_ok sts rps (equipment self0)) (gs_schedule st)
  ∧ (∀ dp g, last (gs_schedule st) = Some dp → trained_on dp g →
       last_trained (gs_self st) !! g = Some (gs_current_day_index st - 1))
  ∧ (∀ i dp dp' g, gs_schedule st !! i = Some dp → gs_schedule st !! S i = Some dp' →
       trained_on dp g → ¬ trained_on dp' g).

(** Week, day index and focus of a day, and the ones a week of the
    template [tpl] must have, in order. *)
Definition day_key (dp : DayPlan) : Z * Z * string := (week dp, day_index dp, focus dp).

Definition week_keys (tpl : list string) (w : Z) : list (Z * Z * string) :=
  imap (λ i f, (w, Z.of_nat i, f)) tpl.

(** Week, day index and exercise ids of a day, for the worked examples. *)
Definition day_summary (dp : DayPlan) : Z * Z * list string :=
  (week dp, day_index dp, map exercise_id (items dp)).

(** Objects for the worked examples: a bodyweight plan at the call, the
    same plan on the day after a full-body day, and an object whose
    [last_trained] is not the initial one. *)
Definition demo_plan : WorkoutPlan :=
  {| character_id := "saitama"; days := 3; level := "beginner"; goal := "athletic";
     equipment := "bodyweight"; last_trained := initial_last_trained;
     template := ["full"; "full"; "full"] |}.

Definition demo_next_day : GenState :=
  {| gs_self :=
       {| character_id := "saitama"; days := 3; level := "beginner"; goal := "athletic";
          equipment := "bodyweight";
          last_trained := <["shoulders" := -999]> (<["chest" := 0]>
            (<["back" := 0]> (<["legs" := 0]> (<["core" := 0]> ∅))));
          template := ["full"; "full"; "full"] |};
     gs_schedule := []; gs_current_day_index := 1; gs_draws := 4 |}.

Definition demo_used_plan : WorkoutPlan :=
  {| character_id := "goku"; days := 3; level := "beginner"; goal := "strength";
     equipment := "gym"; last_trained := <["chest" := 7]> ∅; template := ["push"] |}.

(** The value [last_trained] has to hold for group [g] after the days of
    [sched]: the global index of the last day that trains [g], and the
    value [v0] from before the call when no day does. *)
Definition recorded (sched : list DayPlan) (g : string) (v0 : option Z) : option Z :=
  foldl (λ acc p, if decide (trained_on p.2 g) then Some (Z.of_nat p.1) else acc)
        v0 (imap pair sched).

(** Number of items of a schedule. *)
Definition total_items (sched : list DayPlan) : nat :=
  sum_list_with (λ dp, length (items dp)) sched.

(** How the state of [generate] relates to the days appended so far,
    [self0] and [k0] being the object and the random position at the
    call: one draw per item, [last_trained] as [recorded], and on every
    day exactly the groups of the focus that have a pool and at least two
    days since their last training. *)
Definition gen_trace (self0 : WorkoutPlan) (k0 : nat) (st : GenState) : Prop :=
  same_config self0 (gs_self st)
  ∧ gs_current_day_index st = Z.of_nat (length (gs_schedule st))
  ∧ gs_draws st = (k0 + total_items (gs_schedule st))%nat
  ∧ (∀ g, last_trained (gs_self st) !! g
          = recorded (gs_schedule st) g (last_trained self0 !! g))
  ∧ (∀ (i : nat) dp g,
       gs_schedule st !! i = Some dp →
       (trained_on dp g ↔
        g ∈ _focus_groups (focus dp)
        ∧ _filtered self0 g ≠ []
        ∧ ∃ v, recorded (take i (gs_schedule st)) g (last_trained self0 !! g) = Some v
               ∧ 2 ≤ Z.of_nat i - v)).

(** What of a day does not involve sets and reps. *)
Definition day_shape (dp : DayPlan) : Z * Z * string * list string :=
  (week dp, day_index dp, focus dp, exercise_id <$> items dp).

(** Two objects the loops of [generate] cannot tell apart, and two states
    of [generate] that differ at most in level, goal, sets and reps. *)
Definition same_plan (a b : WorkoutPlan) : Prop :=
  equipment a = equipment b ∧ last_trained a = last_trained b ∧ template a = template b.

Definition same_shape (st1 st2 : GenState) : Prop :=
  same_plan (gs_self st1) (gs_self st2)
  ∧ day_shape <$> gs_schedule st1 = day_shape <$> gs_schedule st2
  ∧ gs_current_day_index st1 = gs_current_day_index st2
  ∧ gs_draws st1 = gs_draws st2.

(** Two random streams lead to the same choice at draw [i], whatever the
    group, under equipment [eq]. *)
Definition draws_agree (rnd1 rnd2 : nat → nat) (eq : string) (i : nat) : Prop :=
  ∀ g, random_choice rnd1 i (filtered_loop eq g EXERCISES [])
       = random_choice rnd2 i (filtered_loop eq g EXERCISES []).

(** An object as a three-day bodyweight call leaves it. *)
Definition demo_carried_plan : WorkoutPlan :=
  {| character_id := "saitama"; days := 3; level := "beginner"; goal := "athletic";
     equipment := "bodyweight";
     last_trained := <["chest" := 2]> (<["back" := 2]> (<["legs" := 2]>
       (<["shoulders" := -999]> (<["arms" := -999]> (<["core" := 2]> ∅)))));
     template := ["full"; "full"; "full"] |}.

(** * Properties *)

(** ** The static tables *)

Lemma CHAR_ARCH_lookup cid a :
  CHAR_ARCH !! cid = Some a →
  (cid, a) ∈ [("goku", goku); ("luffy", luffy); ("asta", asta); ("saitama", saitama)].
Proof.
  unfold CHAR_ARCH. rewrite !lookup_insert_Some, lookup_empty, !elem_of_cons.
  intros H. decompose [and or] H; simplify_eq; auto.
Qed.

Lemma exercise_by_id_catalog ex :
  ex ∈ EXERCISES → exercise_by_id (ex_id ex) = Some ex.
Proof.
  unfold EXERCISES. rewrite !elem_of_cons, elem_of_nil.
  intros H. repeat (destruct H as [->|H]; [reflexivity|]). done.
Qed.

Lemma focus_groups_tracked f : _focus_groups f ⊆ tracked_groups.
Proof.
  unfold _focus_groups, tracked_groups. intros g.
  repeat case_decide; rewrite !elem_of_cons; tauto.
Qed.

Lemma focus_groups_NoDup f : NoDup (_focus_groups f).
Proof.
  unfold _focus_groups. repeat case_decide; compute_done.
Qed.

(** ** [_filtered] *)

Lemma filtered_loop_filter eq g exs pool :
  filtered_loop eq g exs pool
  = pool ++ filter (λ ex, ex_group ex = g ∧ eligible eq ex) exs.
Proof.
  revert pool. induction exs as [|ex exs IH]; intros pool; simpl.
  - by rewrite app_nil_r.
  - unfold eligible at 1. rewrite filter_cons.
    repeat case_decide; rewrite IH; try rewrite <- app_assoc; simpl; try done;
      exfalso; intuition congruence.
Qed.

Lemma filtered_spec self g :
  _filtered self g
  = filter (λ ex, ex_group ex = g ∧ eligible (equipment self) ex) EXERCISES.
Proof. unfold _filtered. by rewrite filtered_loop_filter. Qed.

Lemma elem_of_filtered self g ex :
  ex ∈ _filtered self g ↔
  ex ∈ EXERCISES ∧ ex_group ex = g ∧ eligible (equipment self) ex.
Proof. rewrite filtered_spec, list_elem_of_filter. tauto. Qed.

Lemma filtered_set_last_trained g' v self g :
  _filtered (set_last_trained g' v self) g = _filtered self g.
Proof.
  unfold _filtered.
  change (equipment (set_last_trained g' v self)) with (equipment self).
  reflexivity.
Qed.

(** ** The stable sort *)

Lemma insert_by_key_Permutation x l : insert_by_key x l ≡ₚ x :: l.
Proof.
  induction l as [|y l IH]; simpl; [done|].
  case_decide; [done|]. rewrite IH. apply Permutation_swap.
Qed.

Lemma sort_by_key_Permutation l : sort_by_key l ≡ₚ l.
Proof.
  induction l as [|x l IH]; simpl; [done|].
  by rewrite insert_by_key_Permutation, IH.
Qed.

Lemma insert_by_key_Sorted x l :
  Sorted (λ a b, a.1 ≤ b.1) l → Sorted (λ a b, a.1 ≤ b.1) (insert_by_key x l).
Proof.
  induction 1 as [|y l Hs IH Hhd]; simpl.
  - by repeat constructor.
  - case_decide.
    + by repeat constructor.
    + constructor; [done|].
      destruct Hhd as [|z l' Hyz]; simpl in *.
      * constructor. lia.
      * case_decide; constructor; lia.
Qed.

Lemma sort_by_key_Sorted l : Sorted (λ a b, a.1 ≤ b.1) (sort_by_key l).
Proof.
  induction l as [|x l IH]; simpl; [constructor|]. by apply insert_by_key_Sorted.
Qed.

Lemma sort_groups_Some self groups :
  Forall (λ g, is_Some (last_trained self !! g)) groups →
  is_Some (sort_groups self groups).
Proof.
  intros H. unfold sort_groups.
  destruct (mapM (λ g, last_trained self !! g) groups) as [keys|] eqn:E; simpl; [done|].
  assert (is_Some (mapM (λ g, last_trained self !! g) groups)) as [? ?]
    by (by apply mapM_is_Some). congruence.
Qed.

Lemma sort_groups_Permutation self groups gs :
  sort_groups self groups = Some gs → gs ≡ₚ groups.
Proof.
  unfold sort_groups. intros H.
  destruct (mapM (λ g, last_trained self !! g) groups) as [keys|] eqn:E; simplify_eq/=.
  rewrite sort_by_key_Permutation. rewrite snd_zip; [done|].
  apply length_mapM in E. lia.
Qed.

(** ** The fields [generate] leaves alone *)

Lemma same_config_refl self : same_config self self.
Proof. by repeat split. Qed.

Lemma same_config_trans a b c : same_config a b → same_config b c → same_config a c.
Proof. unfold same_config. intros. destruct_and!. repeat split; congruence. Qed.

Lemma same_config_set g v self : same_config self (set_last_trained g v self).
Proof. by repeat split. Qed.

Lemma filtered_same_config a b g : same_config a b → _filtered a g = _filtered b g.
Proof. intros (_ & _ & _ & _ & He & _). unfold _filtered. by rewrite He. Qed.

(** ** [random.choice] *)

Lemma random_choice_elem {A} rnd k (pool : list A) x :
  random_choice rnd k pool = Some x → x ∈ pool.
Proof. unfold random_choice. apply list_elem_of_lookup_2. Qed.

Lemma random_choice_Some {A} rnd k (pool : list A) :
  pool ≠ [] → is_Some (random_choice rnd k pool).
Proof.
  intros Hne. unfold random_choice. apply lookup_lt_is_Some_2.
  apply Nat.mod_upper_bound. destruct pool; [done|]. simpl. lia.
Qed.

(** ** The group loop of one day *)

Lemma group_loop_spec rnd sts rps cur groups : ∀ self its k self' its' k',
  group_loop rnd sts rps cur groups self its k = Some (self', its', k') →
  ∃ gs exs,
    its' = its ++ (item_of sts rps <$> exs)
    ∧ gs `sublist_of` groups
    ∧ Forall2 (λ g ex, ex ∈ _filtered self g) gs exs
    ∧ NoDup gs
    ∧ (∀ g, g ∈ gs → ∃ v, last_trained self !! g = Some v ∧ 2 ≤ cur - v)
    ∧ (∀ g, g ∈ gs → last_trained self' !! g = Some cur)
    ∧ (∀ g, g ∉ gs → last_trained self' !! g = last_trained self !! g)
    ∧ same_config self self'
    ∧ k' = (k + length gs)%nat.
Proof.
  induction groups as [|g rest IH]; intros self its k self' its' k' H; simpl in H.
  { simplify_eq. exists [], []. rewrite app_nil_r.
    split_and!; auto using same_config_refl, NoDup_nil_2;
      try (by intros ? ?%elem_of_nil); simpl; lia. }
  destruct (last_trained self !! g) as [v|] eqn:Hv; simpl in H; [|done].
  assert (group_loop rnd sts rps cur rest self its k = Some (self', its', k') →
            ∃ gs exs, its' = its ++ (item_of sts rps <$> exs)
              ∧ gs `sublist_of` g :: rest
              ∧ Forall2 (λ g ex, ex ∈ _filtered self g) gs exs
              ∧ NoDup gs
              ∧ (∀ g, g ∈ gs → ∃ v, last_trained self !! g = Some v ∧ 2 ≤ cur - v)
              ∧ (∀ g, g ∈ gs → last_trained self' !! g = Some cur)
              ∧ (∀ g, g ∉ gs → last_trained self' !! g = last_trained self !! g)
              ∧ same_config self self'
              ∧ k' = (k + length gs)%nat) as Hskip.
  { intros H1.
    destruct (IH _ _ _ _ _ _ H1) as (gs & exs & ? & ? & HF & ? & ? & ? & ? & ? & ?).
    exists gs, exs. split_and!; auto. by apply sublist_cons. }
  case_decide as Hrec; [by apply Hskip|].
  destruct (_filtered self g) as [|e pool] eqn:Hp; [by apply Hskip|].
  destruct (random_choice rnd k (e :: pool)) as [choice|] eqn:Hc; simpl in H; [|done].
  apply random_choice_elem in Hc. rewrite <- Hp in Hc.
  fold (item_of sts rps choice) in H.
  case_decide as Hcap.
  - simplify_eq. exists [g], [choice]. split_and!; simpl.
    + done.
    + apply sublist_skip, sublist_nil_l.
    + by repeat constructor.
    + apply NoDup_singleton.
    + intros g0 ->%list_elem_of_singleton. exists v. split; [done|lia].
    + intros g0 ->%list_elem_of_singleton. apply lookup_insert_eq.
    + intros g0 Hg0. apply lookup_insert_ne. intros ->. apply Hg0. by left.
    + apply same_config_set.
    + lia.
  - destruct (IH _ _ _ _ _ _ H) as (gs & exs & -> & Hsub & HF & Hnd & Hold & Hnew & Hkeep & Hcfg & ->).
    assert (g ∉ gs) as Hg.
    { intros Hin. destruct (Hold _ Hin) as (v' & Hv' & Hge).
      simpl in Hv'. rewrite lookup_insert_eq in Hv'. simplify_eq. lia. }
    exists (g :: gs), (choice :: exs). split_and!.
    + by rewrite fmap_cons, <- app_assoc.
    + by apply sublist_skip.
    + constructor; [done|]. eapply Forall2_impl; [exact HF|]. intros g0 ex0. simpl.
      by rewrite filtered_set_last_trained.
    + by constructor.
    + intros g0 [->|Hin]%elem_of_cons.
      * exists v. split; [done|lia].
      * destruct (Hold _ Hin) as (v' & Hv' & Hge). exists v'. split; [|done].
        simpl in Hv'. rewrite lookup_insert_ne in Hv'; [done|]. by intros ->.
    + intros g0 [->|Hin]%elem_of_cons; [|by apply Hnew].
      rewrite (Hkeep _ Hg). apply lookup_insert_eq.
    + intros g0 Hg0. rewrite not_elem_of_cons in Hg0. destruct Hg0 as [Hne Hnin].
      rewrite (Hkeep _ Hnin). simpl. by rewrite lookup_insert_ne.
    + eapply same_config_trans; [apply (same_config_set g cur)|done].
    + simpl. lia.
Qed.

Lemma group_loop_cap rnd sts rps cur groups : ∀ self its k self' its' k',
  group_loop rnd sts rps cur groups self its k = Some (self', its', k') →
  (length its < 5)%nat → (length its' ≤ 5)%nat.
Proof.
  induction groups as [|g rest IH]; intros self its k self' its' k' H Hlen; simpl in H.
  { simplify_eq. lia. }
  destruct (last_trained self !! g) as [v|]; simpl in H; [|done].
  case_decide; [by eapply IH|].
  destruct (_filtered self g) as [|e pool]; [by eapply IH|].
  destruct (random_choice rnd k (e :: pool)) as [choice|]; simpl in H; [|done].
  rewrite length_app in H. simpl in H.
  case_decide.
  - simplify_eq. rewrite length_app. simpl. lia.
  - eapply IH; [exact H|]. rewrite length_app. simpl. lia.
Qed.

Lemma group_loop_Some rnd sts rps cur groups : ∀ self its k,
  Forall (λ g, is_Some (last_trained self !! g)) groups →
  is_Some (group_loop rnd sts rps cur groups self its k).
Proof.
  induction groups as [|g rest IH]; intros self its k Hk; simpl; [done|].
  apply Forall_cons in Hk as [[v Hv] Hk]. rewrite Hv. simpl.
  case_decide; [by apply IH|].
  destruct (_filtered self g) as [|e pool]; [by apply IH|].
  destruct (random_choice_Some rnd k (e :: pool)) as [choice ->]; [done|]. simpl.
  case_decide; [done|]. apply IH.
  eapply Forall_impl; [exact Hk|]. intros g0 Hg0. simpl.
  rewrite lookup_insert_is_Some'. by right.
Qed.

Lemma group_loop_idle rnd sts rps cur groups self its k :
  Forall (λ g, ∃ v, last_trained self !! g = Some v
                    ∧ (cur - v < 2 ∨ _filtered self g = [])) groups →
  group_loop rnd sts rps cur groups self its k = Some (self, its, k).
Proof.
  induction 1 as [|g rest (v & Hv & Hblock) _ IH]; simpl; [done|].
  rewrite Hv. simpl. case_decide; [done|].
  destruct Hblock as [?|Hnil]; [lia|by rewrite Hnil].
Qed.

Lemma group_loop_ext rnd1 rnd2 sts rps cur groups : ∀ self its k,
  (∀ n, rnd1 n = rnd2 n) →
  group_loop rnd1 sts rps cur groups self its k
  = group_loop rnd2 sts rps cur groups self its k.
Proof.
  induction groups as [|g rest IH]; intros self its k Hext; simpl; [done|].
  destruct (last_trained self !! g) as [v|]; simpl; [|done].
  case_decide; [by apply IH|].
  destruct (_filtered self g) as [|e pool]; [by apply IH|].
  unfold random_choice. rewrite Hext.
  destruct ((e :: pool) !! _) as [choice|]; simpl; [|done].
  case_decide; [done|]. by apply IH.
Qed.

(** ** One day *)

Lemma item_groups_catalog sts rps gs exs :
  Forall2 (λ g ex, ex ∈ EXERCISES ∧ ex_group ex = g) gs exs →
  item_group <$> (item_of sts rps <$> exs) = Some <$> gs.
Proof.
  induction 1 as [|g ex gs exs [Hcat Hg] _ IH]; [done|].
  rewrite !fmap_cons, IH. f_equal.
  unfold item_group, item_of. simpl.
  rewrite (exercise_by_id_catalog _ Hcat). simpl. by rewrite Hg.
Qed.

Lemma item_groups self sts rps gs exs :
  Forall2 (λ g ex, ex ∈ _filtered self g) gs exs →
  item_group <$> (item_of sts rps <$> exs) = Some <$> gs.
Proof.
  intros HF. apply item_groups_catalog.
  eapply Forall2_impl; [exact HF|]. intros g ex Hex. simpl in Hex.
  apply elem_of_filtered in Hex. tauto.
Qed.

Lemma day_step_spec rnd sts rps w d f st :
  keys_ok (gs_self st) → f ∈ DayFocus →
  ∃ self' its gs exs,
    day_step rnd sts rps w d f st
    = Some {| gs_self := self';
              gs_schedule := gs_schedule st
                ++ [{| week := w; day_index := d; focus := f; items := its |}];
              gs_current_day_index := gs_current_day_index st + 1;
              gs_draws := (gs_draws st + length gs)%nat |}
    ∧ keys_ok self'
    ∧ same_config (gs_self st) self'
    ∧ its = item_of sts rps <$> exs
    ∧ (length its ≤ 5)%nat
    ∧ NoDup gs
    ∧ gs ⊆ _focus_groups f
    ∧ Forall2 (λ g ex, ex ∈ _filtered (gs_self st) g) gs exs
    ∧ (∀ g, g ∈ gs → ∃ v, last_trained (gs_self st) !! g = Some v
                          ∧ 2 ≤ gs_current_day_index st - v)
    ∧ (∀ g, g ∈ gs → last_trained self' !! g = Some (gs_current_day_index st))
    ∧ (∀ g, g ∉ gs → last_trained self' !! g = last_trained (gs_self st) !! g).
Proof.
  intros Hkeys Hf. unfold day_step.
  assert (Forall (λ g, is_Some (last_trained (gs_self st) !! g)) (_focus_groups f)) as Hfk.
  { apply Forall_forall. intros g Hg. apply focus_groups_tracked in Hg.
    unfold keys_ok in Hkeys. rewrite Forall_forall in Hkeys. by apply Hkeys. }
  destruct (sort_groups_Some _ _ Hfk) as [groups Hsort]. rewrite Hsort. simpl.
  pose proof (sort_groups_Permutation _ _ _ Hsort) as Hperm.
  destruct (group_loop_Some rnd sts rps (gs_current_day_index st) groups
              (gs_self st) [] (gs_draws st)) as [[[self' its] k'] Hloop].
  { by rewrite Hperm. }
  rewrite Hloop. simpl.
  pose proof (group_loop_cap _ _ _ _ _ _ _ _ _ _ _ Hloop) as Hcap.
  destruct (group_loop_spec _ _ _ _ _ _ _ _ _ _ _ Hloop)
    as (gs & exs & Hits & Hsub & HF & Hnd & Hold & Hnew & Hkeep & Hcfg & ->).
  unfold mkDayPlan. rewrite decide_True by done. simpl.
  exists self', its, gs, exs. split_and!; auto.
  - unfold keys_ok in *. eapply Forall_impl; [exact Hkeys|]. intros g Hg. simpl in *.
    destruct (decide (g ∈ gs)) as [Hin|Hnin].
    + by rewrite (Hnew _ Hin).
    + by rewrite (Hkeep _ Hnin).
  - apply Hcap. simpl. lia.
  - intros g Hg. rewrite <- Hperm. by eapply elem_of_sublist.
Qed.

Lemma trained_on_iff self sts rps gs exs dp g :
  items dp = item_of sts rps <$> exs →
  Forall2 (λ g ex, ex ∈ _filtered self g) gs exs →
  trained_on dp g ↔ g ∈ gs.
Proof.
  intros Hits HF. unfold trained_on.
  rewrite Hits, (item_groups _ _ _ _ _ HF), list_elem_of_fmap.
  split; [|by eauto]. by intros (g' & [= ->] & Hin).
Qed.

Lemma day_step_inv rnd sts rps self0 w d f st :
  gen_inv sts rps self0 st → f ∈ DayFocus →
  ∃ st' dp,
    day_step rnd sts rps w d f st = Some st'
    ∧ gen_inv sts rps self0 st'
    ∧ gs_schedule st' = gs_schedule st ++ [dp]
    ∧ day_key dp = (w, d, f).
Proof.
  intros (Hkeys & Hcfg & Hcur & Hdays & Hlast & Hadj) Hf.
  destruct (day_step_spec rnd sts rps w d f st Hkeys Hf)
    as (self' & its & gs & exs & Hstep & Hkeys' & Hcfg' & Hits & Hlen & Hnd & Hsub
        & HF & Hold & Hnew & Hkeep).
  set (dp := {| week := w; day_index := d; focus := f; items := its |}) in *.
  assert (∀ g, trained_on dp g ↔ g ∈ gs) as Htr.
  { intros g. by apply (trained_on_iff (gs_self st) sts rps gs exs). }
  eexists _, dp. split; [exact Hstep|]. split; [|done].
  unfold gen_inv. simpl. split_and!; auto.
  - by eapply same_config_trans.
  - rewrite length_app. simpl. lia.
  - apply Forall_app. split; [done|]. apply Forall_singleton.
    split; [done|]. split; [done|]. exists gs, exs. split_and!; auto.
    eapply Forall2_impl; [exact HF|]. intros g ex Hex. simpl in *.
    apply elem_of_filtered in Hex as (? & ? & Hel).
    destruct Hcfg as (_ & _ & _ & _ & He & _). by rewrite He.
  - intros dp' g. rewrite last_snoc. intros [= <-] Hg%Htr.
    rewrite (Hnew _ Hg). f_equal. lia.
  - intros i dp1 dp2 g H1 H2 Hg1 Hg2.
    apply lookup_snoc_Some in H2 as [[Hlt H2]|[Hi <-]].
    + rewrite lookup_app_l in H1 by lia. exact (Hadj _ _ _ _ H1 H2 Hg1 Hg2).
    + rewrite lookup_app_l in H1 by lia.
      assert (last (gs_schedule st) = Some dp1) as Hl1.
      { rewrite last_lookup, <- Hi. done. }
      pose proof (Hlast _ _ Hl1 Hg1) as Hv1.
      apply Htr in Hg2. destruct (Hold _ Hg2) as (v & Hv & Hge).
      rewrite Hv1 in Hv. simplify_eq. lia.
Qed.

Lemma day_step_ext rnd1 rnd2 sts rps w d f st :
  (∀ n, rnd1 n = rnd2 n) →
  day_step rnd1 sts rps w d f st = day_step rnd2 sts rps w d f st.
Proof.
  intros Hext. unfold day_step.
  destruct (sort_groups _ _) as [groups|]; simpl; [|done].
  by rewrite (group_loop_ext rnd1 rnd2).
Qed.

(** ** The loops over days and weeks *)

Lemma day_loop_inv rnd sts rps self0 w tpl : ∀ d st,
  gen_inv sts rps self0 st → Forall (λ f, f ∈ DayFocus) tpl →
  ∃ st',
    day_loop rnd sts rps w d tpl st = Some st'
    ∧ gen_inv sts rps self0 st'
    ∧ day_key <$> gs_schedule st'
      = (day_key <$> gs_schedule st) ++ imap (λ i f, (w, d + Z.of_nat i, f)) tpl.
Proof.
  induction tpl as [|f tpl IH]; intros d st Hinv Htpl; simpl.
  { exists st. by rewrite app_nil_r. }
  apply Forall_cons in Htpl as [Hf Htpl].
  destruct (day_step_inv rnd sts rps self0 w d f st Hinv Hf)
    as (st1 & dp & -> & Hinv1 & Hsched & Hkey).
  simpl. destruct (IH (d + 1) st1 Hinv1 Htpl) as (st' & -> & Hinv' & Hkeys).
  exists st'. split_and!; [done..|].
  rewrite Hkeys, Hsched, fmap_app, <- app_assoc. simpl. rewrite Hkey.
  f_equal. f_equal; [do 2 f_equal; lia|].
  apply imap_ext. intros i x _. simpl. do 2 f_equal. lia.
Qed.

Lemma day_loop_ext rnd1 rnd2 sts rps w tpl : ∀ d st,
  (∀ n, rnd1 n = rnd2 n) →
  day_loop rnd1 sts rps w d tpl st = day_loop rnd2 sts rps w d tpl st.
Proof.
  induction tpl as [|f tpl IH]; intros d st Hext; simpl; [done|].
  rewrite (day_step_ext rnd1 rnd2) by done.
  destruct (day_step rnd2 sts rps w d f st); simpl; [|done]. by apply IH.
Qed.

Lemma week_loop_inv rnd sts rps self0 ws : ∀ st,
  gen_inv sts rps self0 st → Forall (λ f, f ∈ DayFocus) (template self0) →
  ∃ st',
    week_loop rnd sts rps ws st = Some st'
    ∧ gen_inv sts rps self0 st'
    ∧ day_key <$> gs_schedule st'
      = (day_key <$> gs_schedule st) ++ (ws ≫= week_keys (template self0)).
Proof.
  induction ws as [|w ws IH]; intros st Hinv Htpl; simpl.
  { exists st. by rewrite app_nil_r. }
  assert (template (gs_self st) = template self0) as ->.
  { by destruct Hinv as (_ & (_ & _ & _ & _ & _ & <-) & _). }
  destruct (day_loop_inv rnd sts rps self0 w (template self0) 0 st Hinv Htpl)
    as (st1 & -> & Hinv1 & Hkeys1).
  simpl. destruct (IH st1 Hinv1 Htpl) as (st' & -> & Hinv' & Hkeys).
  exists st'. split_and!; [done..|].
  rewrite Hkeys, Hkeys1, <- app_assoc. done.
Qed.

Lemma week_loop_ext rnd1 rnd2 sts rps ws : ∀ st,
  (∀ n, rnd1 n = rnd2 n) →
  week_loop rnd1 sts rps ws st = week_loop rnd2 sts rps ws st.
Proof.
  induction ws as [|w ws IH]; intros st Hext; simpl; [done|].
  rewrite (day_loop_ext rnd1 rnd2) by done.
  destruct (day_loop rnd2 sts rps w 0 _ st); simpl; [|done]. by apply IH.
Qed.

(** ** [generate] *)

Lemma generate_spec self weeks rnd k :
  well_formed self →
  ∃ st,
    generate self weeks rnd k = Some (gs_schedule st, gs_self st, gs_draws st)
    ∧ gen_inv (_sets_reps self).1 (_sets_reps self).2 self st
    ∧ day_key <$> gs_schedule st = seqZ 1 weeks ≫= week_keys (template self).
Proof.
  intros [Hkeys Htpl]. unfold generate.
  destruct (_sets_reps self) as [sts rps]. simpl.
  set (st0 := {| gs_self := self; gs_schedule := []; gs_current_day_index := 0;
                 gs_draws := k |}).
  assert (gen_inv sts rps self st0) as Hinv0.
  { unfold gen_inv. simpl. split_and!; auto using same_config_refl; done. }
  destruct (week_loop_inv rnd sts rps self (py_range 1 (weeks + 1)) st0 Hinv0 Htpl)
    as (st & -> & Hinv & Hkey).
  exists st. split_and!; [done..|].
  rewrite Hkey. simpl. unfold py_range. do 2 f_equal. lia.
Qed.

Lemma generate_ext rnd1 rnd2 self weeks k :
  (∀ n, rnd1 n = rnd2 n) → generate self weeks rnd1 k = generate self weeks rnd2 k.
Proof.
  intros Hext. unfold generate. destruct (_sets_reps self) as [sts rps].
  by rewrite (week_loop_ext rnd1 rnd2).
Qed.

(** ** Template resolution and [__init__] *)

Lemma archetype_template cid a :
  CHAR_ARCH !! cid = Some a →
  Forall (λ f, f ∈ DayFocus) (arch_template a) ∧ is_Some (last (arch_template a)).
Proof.
  intros H%CHAR_ARCH_lookup. rewrite !elem_of_cons, elem_of_nil in H.
  destruct H as [H|[H|[H|[H|[]]]]]; simplify_eq;
    (split; [compute_done|eexists; reflexivity]).
Qed.

Lemma py_slice_to_nonneg {A} (l : list A) n :
  0 ≤ n → py_slice_to l n = take (Z.to_nat n) l.
Proof. intros. unfold py_slice_to. case_decide; [lia|done]. Qed.

Lemma make_template_known cid a n :
  CHAR_ARCH !! cid = Some a → 0 ≤ n →
  ∃ t,
    _make_template cid n = Some t
    ∧ Z.of_nat (length t) = n
    ∧ Forall (λ f, f ∈ DayFocus) t
    ∧ (n ≤ Z.of_nat (length (arch_template a)) → t = take (Z.to_nat n) (arch_template a))
    ∧ (Z.of_nat (length (arch_template a)) < n →
         ∃ l, last (arch_template a) = Some l
              ∧ t = arch_template a
                    ++ replicate (Z.to_nat n - length (arch_template a)) l).
Proof.
  intros Ha Hn. destruct (archetype_template _ _ Ha) as [Hvalid [l Hl]].
  unfold _make_template. rewrite Ha. simpl. case_decide as Hle.
  - eexists. split; [done|]. rewrite py_slice_to_nonneg by done.
    split_and!; [|by apply Forall_take|done|lia].
    rewrite length_take. lia.
  - rewrite Hl. simpl. eexists. split; [done|]. unfold py_repeat.
    replace (Z.to_nat (n - Z.of_nat (length (arch_template a))))
      with (Z.to_nat n - length (arch_template a))%nat by lia.
    split_and!; [| |lia|by eauto].
    + rewrite length_app, length_replicate. lia.
    + apply Forall_app. split; [done|]. apply Forall_replicate.
      rewrite Forall_forall in Hvalid. apply Hvalid.
      rewrite last_lookup in Hl. by eapply list_elem_of_lookup_2.
Qed.

Lemma make_template_unknown cid n :
  CHAR_ARCH !! cid = None →
  ∃ t,
    _make_template cid n = Some t
    ∧ Forall (λ f, f ∈ DayFocus) t
    ∧ (n ≤ 3 → t = ["full"; "full"; "full"])
    ∧ (n = 4 → t = ["push"; "legs"; "pull"; "full"])
    ∧ (n = 5 → t = ["push"; "pull"; "legs"; "full"; "full"])
    ∧ (6 ≤ n → t = ["push"; "pull"; "legs"; "push"; "pull"; "legs"]).
Proof.
  intros Hc. unfold _make_template. rewrite Hc.
  repeat case_decide; eexists; (split; [done|]); (split; [compute_done|]);
    split_and!; intros; first [done|lia].
Qed.

Lemma keys_ok_initial : Forall (λ g, is_Some (initial_last_trained !! g)) tracked_groups.
Proof. repeat constructor; by eexists. Qed.

Lemma init_spec cid dpw lvl gl eq :
  ∃ t,
    _make_template cid (Z.max 1 (Z.min 6 dpw)) = Some t
    ∧ Forall (λ f, f ∈ DayFocus) t
    ∧ __init__ cid dpw lvl gl eq
      = Some {| character_id := cid; days := Z.max 1 (Z.min 6 dpw); level := lvl;
                goal := gl; equipment := eq; last_trained := initial_last_trained;
                template := t |}.
Proof.
  unfold __init__.
  destruct (CHAR_ARCH !! cid) as [a|] eqn:Ha.
  - destruct (make_template_known cid a (Z.max 1 (Z.min 6 dpw)) Ha) as (t & -> & _ & Hv & _);
      [lia|]. by exists t.
  - destruct (make_template_unknown cid (Z.max 1 (Z.min 6 dpw)) Ha) as (t & -> & Hv & _).
    by exists t.
Qed.

Lemma init_well_formed cid dpw lvl gl eq self :
  __init__ cid dpw lvl gl eq = Some self → well_formed self.
Proof.
  destruct (init_spec cid dpw lvl gl eq) as (t & _ & Hv & ->). intros [= <-].
  split; [apply keys_ok_initial|done].
Qed.

(** ** Lists built week by week *)

Lemma bind_uniform_length {A B} (f : A → list B) (n : nat) (l : list A) :
  (∀ x, length (f x) = n) → length (l ≫= f) = (length l * n)%nat.
Proof.
  intros Hn. induction l as [|x l IH]; [done|].
  rewrite bind_cons, length_app, Hn, IH. simpl. lia.
Qed.

Lemma bind_uniform_lookup {A B} (f : A → list B) (n : nat) (l : list A) : ∀ w d x,
  (∀ x, length (f x) = n) → l !! w = Some x → (d < n)%nat →
  (l ≫= f) !! (w * n + d)%nat = f x !! d.
Proof.
  induction l as [|y l IH]; intros w d x Hn Hw Hd; [done|].
  rewrite bind_cons. destruct w as [|w]; simpl in Hw.
  - simplify_eq. rewrite lookup_app_l by (rewrite Hn; lia). done.
  - rewrite lookup_app_r by (rewrite Hn; lia). rewrite Hn.
    replace (S w * n + d - n)%nat with (w * n + d)%nat by lia. by apply IH.
Qed.

Lemma week_keys_length tpl w : length (week_keys tpl w) = length tpl.
Proof. apply length_imap. Qed.

(** ** The core call *)

Lemma generate_schedule_spec cid dpw lvl gl eq weeks rnd :
  ∃ self st,
    __init__ cid dpw lvl gl eq = Some self
    ∧ generate self weeks rnd 0 = Some (gs_schedule st, gs_self st, gs_draws st)
    ∧ generate_schedule cid dpw lvl gl eq weeks rnd = Some (gs_schedule st)
    ∧ gen_inv (_sets_reps self).1 (_sets_reps self).2 self st
    ∧ day_key <$> gs_schedule st = seqZ 1 weeks ≫= week_keys (template self).
Proof.
  destruct (init_spec cid dpw lvl gl eq) as (t & _ & _ & Hinit).
  pose proof (init_well_formed _ _ _ _ _ _ Hinit) as Hwf.
  destruct (generate_spec _ weeks rnd 0%nat Hwf) as (st & Hgen & Hinv & Hkeys).
  eexists _, st. split; [exact Hinit|]. split; [exact Hgen|].
  split; [|by split].
  unfold generate_schedule. rewrite Hinit. simpl. by rewrite Hgen.
Qed.

(** The endpoint is the core call with four weeks. *)
Lemma generate_plan_spec req rnd :
  generate_plan req rnd
  = (λ s, {| resp_weeks := 4; resp_schedule := s |})
      <$> generate_schedule (req_character_id req) (req_days_per_week req)
            (req_level req) (req_goal req) (req_equipment req) 4 rnd.
Proof.
  unfold generate_plan, generate_schedule.
  destruct (__init__ _ _ _ _ _) as [gen|]; simpl; [|done].
  by destruct (generate gen 4 rnd 0).
Qed.

(** * The claims *)

(** C1: for a weeks count [weeks >= 0] the schedule has exactly
    [weeks * len(template)] days; they come week by week (weeks numbered
    from 1) and, inside a week, in the order of the template, the entry at
    position [w * len(template) + d] carrying [week = w + 1],
    [day_index = d] and the focus at position [d] of the resolved
    template. *)
Theorem schedule_shape cid dpw lvl gl eq weeks rnd :
  0 ≤ weeks →
  ∃ self sched,
    __init__ cid dpw lvl gl eq = Some self
    ∧ generate_schedule cid dpw lvl gl eq weeks rnd = Some sched
    ∧ Z.of_nat (length sched) = weeks * Z.of_nat (length (template self))
    ∧ day_key <$> sched = seqZ 1 weeks ≫= week_keys (template self)
    ∧ ∀ w d : nat,
        Z.of_nat w < weeks → (d < length (template self))%nat →
        ∃ dp f,
          sched !! (w * length (template self) + d)%nat = Some dp
          ∧ template self !! d = Some f
          ∧ week dp = Z.of_nat w + 1
          ∧ day_index dp = Z.of_nat d
          ∧ focus dp = f.
Proof.
  intros Hweeks.
  destruct (generate_schedule_spec cid dpw lvl gl eq weeks rnd)
    as (self & st & Hinit & _ & Hgen & _ & Hkeys).
  exists self, (gs_schedule st). split_and!; [done..| | |].
  - rewrite <- (length_fmap day_key), Hkeys.
    rewrite (bind_uniform_length _ (length (template self)))
      by apply week_keys_length.
    rewrite length_seqZ. lia.
  - done.
  - intros w d Hw Hd.
    destruct (lookup_lt_is_Some_2 (template self) d Hd) as [f Hf].
    assert ((day_key <$> gs_schedule st) !! (w * length (template self) + d)%nat
            = Some (1 + Z.of_nat w, Z.of_nat d, f)) as Hlk.
    { rewrite Hkeys.
      rewrite (bind_uniform_lookup _ (length (template self)) _ w d (1 + Z.of_nat w));
        [|apply week_keys_length|by apply lookup_seqZ_lt|done].
      unfold week_keys. by rewrite list_lookup_imap, Hf. }
    rewrite list_lookup_fmap in Hlk.
    destruct (gs_schedule st !! _) as [dp|]; [|done].
    injection Hlk as Hw' Hd' Hf'. exists dp, f. split_and!; auto. lia.
Qed.

Lemma schedule_shape_witness :
  0 ≤ 4 ∧
  ∃ self sched,
    __init__ "goku" 7 "beginner" "strength" "gym" = Some self
    ∧ generate_schedule "goku" 7 "beginner" "strength" "gym" 4 (λ n, n) = Some sched
    ∧ Z.of_nat (length sched) = 4 * Z.of_nat (length (template self))
    ∧ day_key <$> sched = seqZ 1 4 ≫= week_keys (template self)
    ∧ ∀ w d : nat,
        Z.of_nat w < 4 → (d < length (template self))%nat →
        ∃ dp f,
          sched !! (w * length (template self) + d)%nat = Some dp
          ∧ template self !! d = Some f
          ∧ week dp = Z.of_nat w + 1
          ∧ day_index dp = Z.of_nat d
          ∧ focus dp = f.
Proof.
  split; [lia|]. apply (schedule_shape "goku" 7 "beginner" "strength" "gym" 4 (λ n, n)). lia.
Defined.

(** C2: recovery.  In every generated plan, positions in the schedule
    being the global day indices (they run on across week boundaries), a
    group trained on day [i] is not trained on any day [k] with
    [i < k < i + 2]; after the last day, the groups trained on it have
    that day's global index in [last_trained]. *)
Theorem recovery_constraint cid dpw lvl gl eq weeks rnd :
  ∃ self sched self' k',
    __init__ cid dpw lvl gl eq = Some self
    ∧ generate self weeks rnd 0 = Some (sched, self', k')
    ∧ generate_schedule cid dpw lvl gl eq weeks rnd = Some sched
    ∧ (∀ (i k : nat) dp dp' g,
         (i < k < i + 2)%nat → sched !! i = Some dp → sched !! k = Some dp' →
         trained_on dp g → ¬ trained_on dp' g)
    ∧ (∀ dp g,
         last sched = Some dp → trained_on dp g →
         last_trained self' !! g = Some (Z.of_nat (length sched) - 1)).
Proof.
  destruct (generate_schedule_spec cid dpw lvl gl eq weeks rnd)
    as (self & st & Hinit & Hgen & Hsched & Hinv & _).
  destruct Hinv as (_ & _ & Hcur & _ & Hlast & Hadj).
  exists self, (gs_schedule st), (gs_self st), (gs_draws st).
  split_and!; [done..| |].
  - intros i k dp dp' g Hik Hi Hk. replace k with (S i) in Hk by lia.
    by eapply Hadj.
  - intros dp g Hl Hg. rewrite <- Hcur. by eapply Hlast.
Qed.

(** The day counter is not reset between weeks: with a three-day template
    the chest is trained on the last day of week 1 and the first day of
    week 2 has no item at all. *)
Example recovery_across_weeks :
  option_map (map day_summary)
    (generate_schedule "saitama" 3 "beginner" "strength" "bodyweight" 2 (λ _, 0%nat))
  = Some [(1, 0, ["pushup"; "pullup"; "squat-bw"; "plank"]); (1, 1, []);
          (1, 2, ["pushup"; "pullup"; "squat-bw"; "plank"]); (2, 0, []);
          (2, 1, ["pushup"; "pullup"; "squat-bw"; "plank"]); (2, 2, [])].
Proof. vm_compute. reflexivity. Qed.

(** C3: sets and reps.  [_sets_reps] computes the pair of the
    specification ([spec_sets], [spec_reps]); every item of every day of
    the plan carries that one pair; goku with strength has reps 5, luffy
    with strength reps 6, saitama with hypertrophy sets 3 and reps 10. *)
Theorem sets_reps_uniform cid dpw lvl gl eq weeks rnd :
  ∃ self sched,
    __init__ cid dpw lvl gl eq = Some self
    ∧ generate_schedule cid dpw lvl gl eq weeks rnd = Some sched
    ∧ _sets_reps self = (spec_sets cid lvl, spec_reps cid gl)
    ∧ (∀ dp it, dp ∈ sched → it ∈ items dp →
         sets it = spec_sets cid lvl ∧ reps it = spec_reps cid gl)
    ∧ (cid = "goku" → gl = "strength" → (_sets_reps self).2 = 5)
    ∧ (cid = "luffy" → gl = "strength" → (_sets_reps self).2 = 6)
    ∧ (cid = "saitama" → gl = "hypertrophy" → _sets_reps self = (3, 10)).
Proof.
  destruct (generate_schedule_spec cid dpw lvl gl eq weeks rnd)
    as (self & st & Hinit & _ & Hsched & Hinv & _).
  assert (character_id self = cid ∧ level self = lvl ∧ goal self = gl) as (Hc & Hl & Hg).
  { destruct (init_spec cid dpw lvl gl eq) as (t & _ & _ & Hi).
    rewrite Hi in Hinit. by simplify_eq. }
  assert (_sets_reps self = (spec_sets cid lvl, spec_reps cid gl)) as Hsr.
  { unfold _sets_reps, spec_sets, spec_reps. rewrite Hc, Hl, Hg.
    destruct (CHAR_ARCH !! cid); simpl; repeat case_decide; done. }
  exists self, (gs_schedule st). split_and!; [done..| | | |].
  - intros dp it Hdp Hit. rewrite Hsr in Hinv. simpl in Hinv.
    destruct Hinv as (_ & _ & _ & Hdays & _).
    rewrite Forall_forall in Hdays.
    destruct (Hdays _ Hdp) as (_ & _ & gs & exs & Hits & _).
    rewrite Hits in Hit. apply list_elem_of_fmap in Hit as (ex & -> & _). done.
  - intros -> ->. by rewrite Hsr.
  - intros -> ->. by rewrite Hsr.
  - intros -> ->. rewrite Hsr. by destruct (decide (lvl = "beginner")).
Qed.

(** C4: fallback template.  For a character id that is not in
    [CHAR_ARCH], the template is three times "full" when the clamped day
    count is at most 3 (whatever the requested count), and the fixed
    four-, five- and six-day templates for 4, 5 and 6. *)
Theorem fallback_template cid dpw lvl gl eq :
  CHAR_ARCH !! cid = None →
  ∃ self,
    __init__ cid dpw lvl gl eq = Some self
    ∧ days self = Z.max 1 (Z.min 6 dpw)
    ∧ (days self ≤ 3 → template self = ["full"; "full"; "full"])
    ∧ (days self = 4 → template self = ["push"; "legs"; "pull"; "full"])
    ∧ (days self = 5 → template self = ["push"; "pull"; "legs"; "full"; "full"])
    ∧ (days self = 6 → template self = ["push"; "pull"; "legs"; "push"; "pull"; "legs"]).
Proof.
  intros Hc. destruct (init_spec cid dpw lvl gl eq) as (t & Ht & _ & Hinit).
  destruct (make_template_unknown cid (Z.max 1 (Z.min 6 dpw)) Hc)
    as (t' & Ht' & _ & H3 & H4 & H5 & H6).
  rewrite Ht in Ht'. injection Ht' as <-.
  eexists. split; [exact Hinit|]. simpl. split_and!; auto. intros. apply H6. lia.
Qed.

Lemma fallback_template_witness :
  CHAR_ARCH !! "nobody" = None ∧
  ∃ self,
    __init__ "nobody" 2 "beginner" "athletic" "gym" = Some self
    ∧ days self = Z.max 1 (Z.min 6 2)
    ∧ (days self ≤ 3 → template self = ["full"; "full"; "full"])
    ∧ (days self = 4 → template self = ["push"; "legs"; "pull"; "full"])
    ∧ (days self = 5 → template self = ["push"; "pull"; "legs"; "full"; "full"])
    ∧ (days self = 6 → template self = ["push"; "pull"; "legs"; "push"; "pull"; "legs"]).
Proof.
  split; [reflexivity|].
  apply (fallback_template "nobody" 2 "beginner" "athletic" "gym"). reflexivity.
Defined.

(** C5: template of a known character.  The day count is clamped into
    [1, 6] first; the template has exactly that many entries: the first
    [n] of the archetype's template when it has at least [n], otherwise
    the archetype's template followed by copies of its last tag.  For a
    requested count above 6 the length is 6. *)
Theorem known_template cid a dpw lvl gl eq :
  CHAR_ARCH !! cid = Some a →
  ∃ self,
    __init__ cid dpw lvl gl eq = Some self
    ∧ days self = Z.max 1 (Z.min 6 dpw)
    ∧ 1 ≤ days self ≤ 6
    ∧ Z.of_nat (length (template self)) = days self
    ∧ (days self ≤ Z.of_nat (length (arch_template a)) →
         template self = take (Z.to_nat (days self)) (arch_template a))
    ∧ (Z.of_nat (length (arch_template a)) < days self →
         ∃ l, last (arch_template a) = Some l
              ∧ template self
                = arch_template a
                  ++ replicate (Z.to_nat (days self) - length (arch_template a)) l)
    ∧ (6 < dpw → length (template self) = 6%nat).
Proof.
  intros Ha. destruct (init_spec cid dpw lvl gl eq) as (t & Ht & _ & Hinit).
  destruct (make_template_known cid a (Z.max 1 (Z.min 6 dpw)) Ha)
    as (t' & Ht' & Hlen & _ & Htake & Hpad); [lia|].
  rewrite Ht in Ht'. injection Ht' as <-.
  eexists. split; [exact Hinit|]. simpl. split_and!; auto; lia.
Qed.

Lemma known_template_witness :
  CHAR_ARCH !! "saitama" = Some saitama ∧
  ∃ self,
    __init__ "saitama" 7 "beginner" "athletic" "gym" = Some self
    ∧ days self = Z.max 1 (Z.min 6 7)
    ∧ 1 ≤ days self ≤ 6
    ∧ Z.of_nat (length (template self)) = days self
    ∧ (days self ≤ Z.of_nat (length (arch_template saitama)) →
         template self = take (Z.to_nat (days self)) (arch_template saitama))
    ∧ (Z.of_nat (length (arch_template saitama)) < days self →
         ∃ l, last (arch_template saitama) = Some l
              ∧ template self
                = arch_template saitama
                  ++ replicate (Z.to_nat (days self) - length (arch_template saitama)) l)
    ∧ (6 < 7 → length (template self) = 6%nat).
Proof.
  split; [reflexivity|].
  apply (known_template "saitama" saitama 7 "beginner" "athletic" "gym"). reflexivity.
Defined.

Example padded_template_example :
  template <$> __init__ "saitama" 7 "beginner" "athletic" "gym"
  = Some ["full"; "full"; "full"; "full"; "full"; "full"].
Proof. reflexivity. Qed.

Example truncated_template_example :
  template <$> __init__ "goku" 2 "beginner" "athletic" "gym" = Some ["push"; "pull"].
Proof. reflexivity. Qed.

(** C6: equipment filter.  The pool of a group is the catalog exercises
    of that group that are eligible: all of them when the equipment is
    "gym", otherwise those whose equipment is the requested one or
    "bodyweight".  Every item of a generated plan is such an exercise, so
    with "dumbbells" none requires "gym".  A group whose pool is empty is
    passed over: the loop goes on with the same items, the same
    [last_trained] and the same random position. *)
Theorem equipment_filter cid dpw lvl gl eq weeks rnd :
  (∀ self g ex,
     ex ∈ _filtered self g ↔
     ex ∈ EXERCISES ∧ ex_group ex = g
     ∧ (equipment self = "gym" ∨ ex_equipment ex = equipment self
        ∨ ex_equipment ex = "bodyweight"))
  ∧ (∃ sched,
       generate_schedule cid dpw lvl gl eq weeks rnd = Some sched
       ∧ ∀ dp it, dp ∈ sched → it ∈ items dp →
           ∃ ex, exercise_by_id (exercise_id it) = Some ex
                 ∧ ex ∈ EXERCISES
                 ∧ (eq = "gym" ∨ ex_equipment ex = eq ∨ ex_equipment ex = "bodyweight")
                 ∧ (eq = "dumbbells" → ex_equipment ex ≠ "gym"))
  ∧ (∀ sts rps cur g rest self its k,
       is_Some (last_trained self !! g) → _filtered self g = [] →
       group_loop rnd sts rps cur (g :: rest) self its k
       = group_loop rnd sts rps cur rest self its k).
Proof.
  split_and!.
  - apply elem_of_filtered.
  - destruct (generate_schedule_spec cid dpw lvl gl eq weeks rnd)
      as (self & st & Hinit & _ & Hsched & Hinv & _).
    assert (equipment self = eq) as He.
    { destruct (init_spec cid dpw lvl gl eq) as (t & _ & _ & Hi).
      rewrite Hi in Hinit. by simplify_eq. }
    exists (gs_schedule st). split; [done|]. intros dp it Hdp Hit.
    destruct Hinv as (_ & _ & _ & Hdays & _). rewrite Forall_forall in Hdays.
    destruct (Hdays _ Hdp) as (_ & _ & gs & exs & Hits & _ & _ & HF).
    rewrite Hits in Hit. apply list_elem_of_fmap in Hit as (ex & -> & Hex).
    assert (ex ∈ EXERCISES ∧ eligible eq ex) as [Hcat Hel].
    { rewrite <- He. clear Hits. induction HF as [|g e gs exs (? & ? & ?) _ IH].
      - by apply elem_of_nil in Hex.
      - apply elem_of_cons in Hex as [->|Hex]; [done|by apply IH]. }
    exists ex. split_and!; [by apply exercise_by_id_catalog|done|exact Hel|].
    intros ->. destruct Hel as [?|[Hq|Hq]]; [done|by rewrite Hq..].
  - intros sts rps cur g rest self its k [v Hv] Hnil. simpl.
    rewrite Hv, Hnil. simpl. by case_decide.
Qed.

Lemma equipment_filter_witness :
  (is_Some (last_trained demo_plan !! "shoulders") ∧ _filtered demo_plan "shoulders" = [])
  ∧ group_loop (λ n, n) 3 10 0 ["shoulders"; "core"] demo_plan [] 0
    = group_loop (λ n, n) 3 10 0 ["core"] demo_plan [] 0.
Proof.
  assert (is_Some (last_trained demo_plan !! "shoulders")) as Hk by (by eexists).
  assert (_filtered demo_plan "shoulders" = []) as Hp by reflexivity.
  split; [by split|].
  exact (proj2 (proj2 (equipment_filter "saitama" 3 "beginner" "athletic" "bodyweight"
                         1 (λ n, n))) 3 10 0 "shoulders" ["core"] demo_plan [] 0%nat Hk Hp).
Defined.

(** A day on which no group of the focus can be trained (each is still
    recovering or has an empty pool) is appended with no item; nothing is
    raised and [last_trained] and the random position stay as they were. *)
Lemma day_step_idle rnd sts rps w d f st :
  f ∈ DayFocus →
  Forall (λ g, ∃ v, last_trained (gs_self st) !! g = Some v
                    ∧ (gs_current_day_index st - v < 2 ∨ _filtered (gs_self st) g = []))
         (_focus_groups f) →
  day_step rnd sts rps w d f st
  = Some {| gs_self := gs_self st;
            gs_schedule := gs_schedule st
              ++ [{| week := w; day_index := d; focus := f; items := [] |}];
            gs_current_day_index := gs_current_day_index st + 1;
            gs_draws := gs_draws st |}.
Proof.
  intros Hf Hblocked. unfold day_step.
  destruct (sort_groups_Some (gs_self st) (_focus_groups f)) as [groups Hsort].
  { eapply Forall_impl; [exact Hblocked|]. intros g (v & -> & _). by eexists. }
  rewrite Hsort. simpl.
  rewrite <- (sort_groups_Permutation _ _ _ Hsort) in Hblocked.
  rewrite (group_loop_idle _ _ _ _ _ _ _ _ Hblocked). simpl.
  unfold mkDayPlan. by rewrite decide_True.
Qed.

(** C7: every day of every generated plan has between 0 and 5 items.
    The group loop entered with fewer than five items never returns more
    than five, whatever groups are left to visit; a day on which no group can be
    trained gets an empty item list and the generation goes on. *)
Theorem items_bound cid dpw lvl gl eq weeks rnd :
  (∃ sched,
     generate_schedule cid dpw lvl gl eq weeks rnd = Some sched
     ∧ ∀ dp, dp ∈ sched → (0 ≤ length (items dp) ≤ 5)%nat)
  ∧ (∀ sts rps cur groups self its k self' its' k',
       group_loop rnd sts rps cur groups self its k = Some (self', its', k') →
       (length its < 5)%nat → (length its' ≤ 5)%nat)
  ∧ (∀ sts rps w d f st,
       f ∈ DayFocus →
       Forall (λ g, ∃ v, last_trained (gs_self st) !! g = Some v
                         ∧ (gs_current_day_index st - v < 2
                            ∨ _filtered (gs_self st) g = []))
              (_focus_groups f) →
       ∃ st' dp,
         day_step rnd sts rps w d f st = Some st'
         ∧ gs_schedule st' = gs_schedule st ++ [dp]
         ∧ items dp = []).
Proof.
  split_and!.
  - destruct (generate_schedule_spec cid dpw lvl gl eq weeks rnd)
      as (self & st & _ & _ & Hsched & Hinv & _).
    exists (gs_schedule st). split; [done|]. intros dp Hdp.
    destruct Hinv as (_ & _ & _ & Hdays & _). rewrite Forall_forall in Hdays.
    destruct (Hdays _ Hdp) as (_ & Hlen & _). lia.
  - intros sts rps cur groups self its k self' its' k'. apply group_loop_cap.
  - intros sts rps w d f st Hf Hblocked.
    eexists _, _. split; [by apply day_step_idle|]. by split.
Qed.

Lemma items_bound_witness :
  ∃ st' dp,
    day_step (λ n, n) 3 10 1 1 "full" demo_next_day = Some st'
    ∧ gs_schedule st' = gs_schedule demo_next_day ++ [dp]
    ∧ items dp = [].
Proof.
  refine (proj2 (proj2 (items_bound "saitama" 3 "beginner" "athletic" "bodyweight"
                          1 (λ n, n))) 3 10 1 1 "full" demo_next_day _ _).
  - compute_done.
  - repeat constructor.
    + exists 0. split; [reflexivity|]. left. reflexivity.
    + exists 0. split; [reflexivity|]. left. reflexivity.
    + exists 0. split; [reflexivity|]. left. reflexivity.
    + exists (-999). split; [reflexivity|]. right. reflexivity.
    + exists 0. split; [reflexivity|]. left. reflexivity.
Defined.

(** The cap with a group to spare: on a day that already holds four
    items the loop stops after the chest, and the back, which could be
    trained, is left alone. *)
Example cap_with_groups_remaining :
  let self := {| character_id := "x"; days := 1; level := "beginner";
                 goal := "athletic"; equipment := "gym";
                 last_trained := <["chest" := -999]> (<["back" := -999]> ∅);
                 template := ["full"] |} in
  let held := replicate 4 {| exercise_id := "plank"; sets := 3; reps := 10 |} in
  option_map (λ r, (map exercise_id r.1.2, last_trained r.1.1 !! "back", r.2))
    (group_loop (λ _, 0%nat) 3 10 0 ["chest"; "back"] self held 0)
  = Some (["plank"; "plank"; "plank"; "plank"; "pushup"], Some (-999), 1%nat).
Proof. vm_compute. reflexivity. Qed.

(** C8: determinism modulo randomness.  Two calls with the same
    character, day count, level, goal, equipment and weeks, run on random
    streams that make the same draws, both return, and return the same
    schedule. *)
Theorem generate_deterministic cid dpw lvl gl eq weeks rnd1 rnd2 :
  (∀ n, rnd1 n = rnd2 n) →
  ∃ sched,
    generate_schedule cid dpw lvl gl eq weeks rnd1 = Some sched
    ∧ generate_schedule cid dpw lvl gl eq weeks rnd2 = Some sched.
Proof.
  intros Hext.
  destruct (generate_schedule_spec cid dpw lvl gl eq weeks rnd1)
    as (self & st & Hinit & Hgen & Hsched & _).
  exists (gs_schedule st). split; [done|].
  unfold generate_schedule. rewrite Hinit. simpl.
  by rewrite <- (generate_ext rnd1 rnd2) by done; rewrite Hgen.
Qed.

Lemma generate_deterministic_witness :
  (∀ n : nat, (λ n, n * 2)%nat n = (λ n, n + n)%nat n) ∧
  ∃ sched,
    generate_schedule "asta" 5 "intermediate" "hypertrophy" "gym" 4 (λ n, n * 2)%nat
    = Some sched
    ∧ generate_schedule "asta" 5 "intermediate" "hypertrophy" "gym" 4 (λ n, n + n)%nat
      = Some sched.
Proof.
  split; [intros n; simpl; lia|].
  apply (generate_deterministic "asta" 5 "intermediate" "hypertrophy" "gym" 4).
  intros n. lia.
Defined.

(** The object keeps [last_trained] after a call.  The endpoint builds a
    new object for every request; a second [generate] on the same object
    would count its days from 0 again and find the groups of the first
    call's last days still recovering. *)
Example generate_again_on_same_object :
  option_map (λ r, map day_summary r.1.1) (generate demo_plan 1 (λ _, 0%nat) 0)
  = Some [(1, 0, ["pushup"; "pullup"; "squat-bw"; "plank"]); (1, 1, []);
          (1, 2, ["pushup"; "pullup"; "squat-bw"; "plank"])]
  ∧ option_map (λ r, map day_summary r.1.1)
      (generate demo_plan 1 (λ _, 0%nat) 0 ≫= λ r, generate r.1.2 1 (λ _, 0%nat) 0)
    = Some [(1, 0, []); (1, 1, []); (1, 2, [])].
Proof. split; vm_compute; reflexivity. Qed.

(** C9: inside one day every muscle group gives at most one item, and
    every item is a catalog exercise whose group belongs to the groups of
    the day's focus: chest, shoulders, core for "push"; back, core for
    "pull"; legs, core for "legs"; all five groups for any other tag. *)
Theorem day_groups_in_focus cid dpw lvl gl eq weeks rnd :
  (∃ sched,
     generate_schedule cid dpw lvl gl eq weeks rnd = Some sched
     ∧ ∀ dp, dp ∈ sched →
         ∃ gs, item_group <$> items dp = Some <$> gs
               ∧ NoDup gs
               ∧ gs ⊆ _focus_groups (focus dp))
  ∧ _focus_groups "push" = ["chest"; "shoulders"; "core"]
  ∧ _focus_groups "pull" = ["back"; "core"]
  ∧ _focus_groups "legs" = ["legs"; "core"]
  ∧ (∀ f, f ≠ "push" → f ≠ "pull" → f ≠ "legs" →
       _focus_groups f = ["chest"; "back"; "legs"; "shoulders"; "core"]).
Proof.
  split_and!; [|done..|].
  - destruct (generate_schedule_spec cid dpw lvl gl eq weeks rnd)
      as (self & st & _ & _ & Hsched & Hinv & _).
    exists (gs_schedule st). split; [done|]. intros dp Hdp.
    destruct Hinv as (_ & _ & _ & Hdays & _). rewrite Forall_forall in Hdays.
    destruct (Hdays _ Hdp) as (_ & _ & gs & exs & Hits & Hnd & Hsub & HF).
    exists gs. split_and!; [|done..]. rewrite Hits.
    apply item_groups_catalog. eapply Forall2_impl; [exact HF|]. simpl. tauto.
  - intros f ? ? ?. unfold _focus_groups. by repeat case_decide.
Qed.

(** C10: with [weeks <= 0] nothing is generated: [generate] returns the
    empty schedule, leaves the object as it was and makes no draw; the
    core call returns the empty schedule. *)
Theorem generate_no_weeks self cid dpw lvl gl eq weeks rnd k :
  weeks ≤ 0 →
  generate self weeks rnd k = Some ([], self, k)
  ∧ generate_schedule cid dpw lvl gl eq weeks rnd = Some [].
Proof.
  intros Hw.
  assert (∀ s j, generate s weeks rnd j = Some ([], s, j)) as Hgen.
  { intros s j. unfold generate. destruct (_sets_reps s) as [sts rps].
    unfold py_range. rewrite seqZ_nil by lia. done. }
  split; [apply Hgen|].
  destruct (init_spec cid dpw lvl gl eq) as (t & _ & _ & Hinit).
  unfold generate_schedule. rewrite Hinit. simpl. by rewrite Hgen.
Qed.

Lemma generate_no_weeks_witness :
  -2 ≤ 0
  ∧ generate demo_used_plan (-2) (λ n, n) 5 = Some ([], demo_used_plan, 5%nat)
  ∧ generate_schedule "goku" 3 "beginner" "strength" "gym" (-2) (λ n, n) = Some [].
Proof.
  split; [lia|].
  apply (generate_no_weeks demo_used_plan "goku" 3 "beginner" "strength" "gym" (-2)
           (λ n, n) 5%nat).
  lia.
Defined.

(** * Further properties of the generator *)

(** ** Which groups a day trains *)

Lemma focus_groups_length f : (length (_focus_groups f) ≤ 5)%nat.
Proof. unfold _focus_groups. repeat case_decide; simpl; lia. Qed.

(** With room for every group left to visit, the cap cannot cut the loop
    short: a group that is due and has a pool is trained. *)
Lemma group_loop_trains rnd sts rps cur groups : ∀ self its k self' its' k',
  group_loop rnd sts rps cur groups self its k = Some (self', its', k') →
  NoDup groups → (length its + length groups ≤ 5)%nat →
  ∀ g v, g ∈ groups → last_trained self !! g = Some v → 2 ≤ cur - v →
         _filtered self g ≠ [] → last_trained self' !! g = Some cur.
Proof.
  induction groups as [|g0 rest IH];
    intros self its k self' its' k' H Hnd Hlen g v Hg Hv Hdue Hpool; simpl in H.
  { by apply elem_of_nil in Hg. }
  apply NoDup_cons in Hnd as [Hg0 Hnd]. simpl in Hlen.
  destruct (last_trained self !! g0) as [v0|] eqn:Hv0; simpl in H; [|done].
  assert (g ≠ g0 → g ∈ rest) as Hrest.
  { intros Hne. apply elem_of_cons in Hg as [?|?]; done. }
  case_decide as Hrec.
  { destruct (decide (g = g0)) as [->|Hne]; [simplify_eq; lia|].
    apply (IH _ _ _ _ _ _ H Hnd) with (v := v); [lia|by apply Hrest|done..]. }
  destruct (_filtered self g0) as [|e pool] eqn:Hp.
  { destruct (decide (g = g0)) as [->|Hne]; [done|].
    apply (IH _ _ _ _ _ _ H Hnd) with (v := v); [lia|by apply Hrest|done..]. }
  destruct (random_choice rnd k (e :: pool)) as [choice|]; simpl in H; [|done].
  rewrite length_app in H. simpl in H.
  case_decide as Hcap.
  - assert (rest = []) as -> by (apply length_zero_iff_nil; lia).
    simplify_eq. apply list_elem_of_singleton in Hg as ->. simpl.
    apply lookup_insert_eq.
  - destruct (decide (g = g0)) as [->|Hne].
    + destruct (group_loop_spec _ _ _ _ _ _ _ _ _ _ _ H)
        as (gs & exs & _ & Hsub & _ & _ & _ & _ & Hkeep & _).
      rewrite Hkeep; [simpl; apply lookup_insert_eq|].
      intros Hin. apply Hg0. by eapply elem_of_sublist.
    + apply (IH _ _ _ _ _ _ H Hnd) with (v := v).
      * rewrite length_app. simpl. lia.
      * by apply Hrest.
      * simpl. by rewrite lookup_insert_ne.
      * done.
      * by rewrite filtered_set_last_trained.
Qed.

Lemma day_step_char rnd sts rps w d f st st' :
  day_step rnd sts rps w d f st = Some st' →
  ∃ dp,
    gs_schedule st' = gs_schedule st ++ [dp]
    ∧ day_key dp = (w, d, f)
    ∧ gs_current_day_index st' = gs_current_day_index st + 1
    ∧ gs_draws st' = (gs_draws st + length (items dp))%nat
    ∧ same_config (gs_self st) (gs_self st')
    ∧ (∀ g, trained_on dp g ↔
            g ∈ _focus_groups f
            ∧ _filtered (gs_self st) g ≠ []
            ∧ ∃ v, last_trained (gs_self st) !! g = Some v
                   ∧ 2 ≤ gs_current_day_index st - v)
    ∧ (∀ g, last_trained (gs_self st') !! g
            = if decide (trained_on dp g) then Some (gs_current_day_index st)
              else last_trained (gs_self st) !! g).
Proof.
  unfold day_step. intros H.
  destruct (sort_groups (gs_self st) (_focus_groups f)) as [groups|] eqn:Hsort;
    simpl in H; [|done].
  pose proof (sort_groups_Permutation _ _ _ Hsort) as Hperm.
  destruct (group_loop rnd sts rps (gs_current_day_index st) groups (gs_self st) []
              (gs_draws st)) as [[[self' its] k']|] eqn:Hloop; simpl in H; [|done].
  unfold mkDayPlan in H. case_decide; simpl in H; [|done]. simplify_eq.
  destruct (group_loop_spec _ _ _ _ _ _ _ _ _ _ _ Hloop)
    as (gs & exs & Hits & Hsub & HF & Hnd & Hold & Hnew & Hkeep & Hcfg & ->).
  simpl in Hits. subst its.
  set (dp := {| week := w; day_index := d; focus := f;
                items := item_of sts rps <$> exs |}).
  assert (∀ g, trained_on dp g ↔ g ∈ gs) as Htr.
  { intros g. by apply (trained_on_iff (gs_self st) sts rps gs exs). }
  exists dp. simpl. split_and!; auto.
  - f_equal. rewrite length_fmap. by apply Forall2_length in HF.
  - intros g. rewrite Htr. split.
    + intros Hg. split_and!.
      * rewrite <- Hperm. by eapply elem_of_sublist.
      * apply list_elem_of_lookup_1 in Hg as [i Hi].
        destruct (Forall2_lookup_l _ _ _ _ _ HF Hi) as (ex & _ & Hex).
        intros Hnil. rewrite Hnil in Hex. by apply elem_of_nil in Hex.
      * by apply Hold.
    + intros (Hg & Hpool & v & Hv & Hdue).
      destruct (decide (g ∈ gs)) as [|Hnin]; [done|exfalso].
      assert (last_trained self' !! g = Some (gs_current_day_index st)) as Hcur.
      { eapply (group_loop_trains _ _ _ _ _ _ _ _ _ _ _ Hloop); eauto.
        - rewrite Hperm. apply focus_groups_NoDup.
        - simpl. rewrite Hperm. apply focus_groups_length.
        - by rewrite Hperm. }
      rewrite (Hkeep _ Hnin), Hv in Hcur. simplify_eq. lia.
  - intros g. destruct (decide (trained_on dp g)) as [Hg|Hg].
    + apply Hnew. by apply Htr.
    + apply Hkeep. by rewrite <- Htr.
Qed.

(** ** Carrying a property of the state through the loops *)

Lemma day_loop_lift (I : GenState → Prop) rnd sts rps w :
  (∀ d f st st', day_step rnd sts rps w d f st = Some st' → I st → I st') →
  ∀ tpl d st st', day_loop rnd sts rps w d tpl st = Some st' → I st → I st'.
Proof.
  intros Hstep. induction tpl as [|f tpl IH]; intros d st st' H HI; simpl in H.
  { by simplify_eq. }
  destruct (day_step rnd sts rps w d f st) as [st1|] eqn:H1; simpl in H; [|done].
  eapply IH; [exact H|]. by eapply Hstep.
Qed.

Lemma week_loop_lift (I : GenState → Prop) rnd sts rps :
  (∀ w d f st st', day_step rnd sts rps w d f st = Some st' → I st → I st') →
  ∀ ws st st', week_loop rnd sts rps ws st = Some st' → I st → I st'.
Proof.
  intros Hstep. induction ws as [|w ws IH]; intros st st' H HI; simpl in H.
  { by simplify_eq. }
  destruct (day_loop rnd sts rps w 0 (template (gs_self st)) st) as [st1|] eqn:H1;
    simpl in H; [|done].
  eapply IH; [exact H|]. eapply (day_loop_lift I); [apply Hstep|exact H1|done].
Qed.

(** ** [last_trained] as a record of the schedule *)

Lemma recorded_snoc sched dp g v0 :
  recorded (sched ++ [dp]) g v0
  = if decide (trained_on dp g) then Some (Z.of_nat (length sched))
    else recorded sched g v0.
Proof.
  unfold recorded. rewrite imap_app, foldl_app. simpl.
  by rewrite Nat.add_0_r.
Qed.

Lemma recorded_cases sched g v0 :
  (recorded sched g v0 = v0 ∧ ∀ dp, dp ∈ sched → ¬ trained_on dp g)
  ∨ (∃ (j : nat) dp,
       recorded sched g v0 = Some (Z.of_nat j)
       ∧ sched !! j = Some dp ∧ trained_on dp g
       ∧ ∀ (j' : nat) dp', (j < j')%nat → sched !! j' = Some dp' → ¬ trained_on dp' g).
Proof.
  induction sched as [|dp sched IH] using rev_ind.
  { left. split; [done|]. by intros dp ?%elem_of_nil. }
  rewrite recorded_snoc. destruct (decide (trained_on dp g)) as [Hg|Hg].
  - right. exists (length sched), dp. split_and!; [done| |done|].
    + by rewrite lookup_app_r, Nat.sub_diag by lia.
    + intros j' dp' Hj Hlk. apply lookup_lt_Some in Hlk.
      rewrite length_app in Hlk. simpl in Hlk. lia.
  - destruct IH as [[Hr Hno]|(j & dp0 & Hr & Hlk & Htr & Hlater)].
    + left. split; [done|]. intros dp' [?| ->%list_elem_of_singleton]%elem_of_app; auto.
    + right. exists j, dp0. split_and!; [done| |done|].
      * by apply lookup_app_l_Some.
      * intros j' dp' Hj [[? Hlk']|[? <-]]%lookup_snoc_Some; [by eapply Hlater|done].
Qed.

Lemma total_items_snoc sched dp :
  total_items (sched ++ [dp]) = (total_items sched + length (items dp))%nat.
Proof. unfold total_items. rewrite sum_list_with_app. simpl. lia. Qed.

Lemma day_step_trace self0 k0 rnd sts rps w d f st st' :
  day_step rnd sts rps w d f st = Some st' →
  gen_trace self0 k0 st → gen_trace self0 k0 st'.
Proof.
  intros Hstep (Hcfg & Hcur & Hdraws & Hlast & Hdays).
  destruct (day_step_char _ _ _ _ _ _ _ _ Hstep)
    as (dp & Hsched & Hkey & Hcur' & Hdraws' & Hcfg' & Htr & Hlast').
  injection Hkey as _ _ Hf.
  unfold gen_trace. rewrite Hsched, Hcur', Hdraws'. split_and!.
  - by eapply same_config_trans.
  - rewrite length_app. simpl. lia.
  - rewrite total_items_snoc. lia.
  - intros g. rewrite Hlast', recorded_snoc, Hlast, Hcur. done.
  - intros i dp' g [[Hlt Hlk]|[-> <-]]%lookup_snoc_Some.
    + rewrite take_app_le by lia. by apply Hdays.
    + rewrite take_app_length, Htr, Hf, Hlast, Hcur.
      by rewrite (filtered_same_config self0 (gs_self st)).
Qed.

Lemma generate_trace self weeks rnd k sched self' k' :
  generate self weeks rnd k = Some (sched, self', k') →
  ∃ st, gs_schedule st = sched ∧ gs_self st = self' ∧ gs_draws st = k'
        ∧ gen_trace self k st.
Proof.
  unfold generate. destruct (_sets_reps self) as [sts rps]. intros H.
  destruct (week_loop _ _ _ _ _) as [st|] eqn:Hloop; simpl in H; [|done].
  simplify_eq. exists st. split_and!; [done..|].
  eapply (week_loop_lift (gen_trace self k)); [|exact Hloop|].
  - intros w d f s s'. apply day_step_trace.
  - unfold gen_trace. simpl. split_and!; auto using same_config_refl.
    intros i dp g Hlk. by rewrite lookup_nil in Hlk.
Qed.

(** [generate] on an object that is well formed: it returns, and the
    result satisfies both invariants. *)
Lemma generate_total self weeks rnd k :
  well_formed self →
  ∃ st,
    generate self weeks rnd k = Some (gs_schedule st, gs_self st, gs_draws st)
    ∧ gen_inv (_sets_reps self).1 (_sets_reps self).2 self st
    ∧ gen_trace self k st.
Proof.
  intros Hwf. destruct (generate_spec self weeks rnd k Hwf) as (st & Hgen & Hinv & _).
  exists st. split_and!; [done..|].
  destruct (generate_trace _ _ _ _ _ _ _ Hgen) as (st1 & H1 & H2 & H3 & Htrace).
  destruct Htrace as (? & Hc & ? & ? & ?). destruct Hinv as (_ & _ & Hc' & _).
  unfold gen_trace. rewrite <- H1, <- H2, <- H3. split_and!; try done.
  rewrite H1. rewrite Hc'. done.
Qed.

Lemma week_keys_focus (ws : list Z) tpl x :
  x ∈ ws ≫= week_keys tpl → x.2 ∈ tpl.
Proof.
  intros (w & Hx & _)%list_elem_of_bind. unfold week_keys in Hx.
  apply list_elem_of_lookup_1 in Hx as [i Hi].
  rewrite list_lookup_imap in Hi.
  destruct (tpl !! i) as [f|] eqn:Hf; simplify_eq/=.
  by eapply list_elem_of_lookup_2.
Qed.

(** On a fresh object a group is due exactly when it was not trained the
    day before. *)
Lemma fresh_due_iff sched (i : nat) g :
  (∃ v, recorded (take i sched) g (Some (-999)) = Some v ∧ 2 ≤ Z.of_nat i - v)
  ↔ ∀ (j : nat) dp', i = S j → sched !! j = Some dp' → ¬ trained_on dp' g.
Proof.
  destruct (recorded_cases (take i sched) g (Some (-999)))
    as [[Hr Hno]|(j0 & dp0 & Hr & Hlk & Htr & Hlater)]; rewrite Hr.
  - split.
    + intros _ j dp' -> Hj. apply Hno. apply elem_of_take. exists j. split; [done|lia].
    + intros _. exists (-999). split; [done|lia].
  - apply lookup_take_Some in Hlk as [Hlk Hlt]. split.
    + intros (v & [= <-] & Hdue) j dp' -> Hj.
      apply (Hlater j); [lia|]. by rewrite lookup_take_lt by lia.
    + intros Hprev. exists (Z.of_nat j0). split; [done|].
      destruct (decide (S j0 = i)) as [<-|]; [|lia].
      by destruct (Hprev j0 dp0).
Qed.

Lemma fresh_trained_iff cid dpw lvl gl eq weeks rnd :
  ∃ self sched,
    __init__ cid dpw lvl gl eq = Some self
    ∧ generate_schedule cid dpw lvl gl eq weeks rnd = Some sched
    ∧ Forall (day_ok (_sets_reps self).1 (_sets_reps self).2 eq) sched
    ∧ Forall (λ dp, focus dp ∈ template self) sched
    ∧ ∀ (i : nat) dp g,
        sched !! i = Some dp →
        (trained_on dp g ↔
         g ∈ _focus_groups (focus dp)
         ∧ _filtered self g ≠ []
         ∧ ∀ (j : nat) dp', i = S j → sched !! j = Some dp' → ¬ trained_on dp' g).
Proof.
  destruct (init_spec cid dpw lvl gl eq) as (t & _ & _ & Hinit).
  pose proof (init_well_formed _ _ _ _ _ _ Hinit) as Hwf.
  destruct (generate_total _ weeks rnd 0%nat Hwf) as (st & Hgen & Hinv & Htrace).
  pose proof (generate_spec _ weeks rnd 0%nat Hwf) as (st2 & Hgen2 & _ & Hkeys).
  rewrite Hgen in Hgen2. injection Hgen2 as Hs _ _. rewrite <- Hs in Hkeys. clear Hs st2.
  eexists _, (gs_schedule st). split; [exact Hinit|]. split_and!.
  - unfold generate_schedule. rewrite Hinit. simpl. by rewrite Hgen.
  - by destruct Hinv as (_ & _ & _ & Hdays & _).
  - apply Forall_forall. intros dp Hdp.
    apply (week_keys_focus (seqZ 1 weeks) _ (day_key dp)).
    rewrite <- Hkeys. apply list_elem_of_fmap. by exists dp.
  - destruct Htrace as (_ & _ & _ & _ & Hdays). intros i dp g Hlk.
    rewrite (Hdays i dp g Hlk). simpl.
    split; intros (Hg & Hpool & Hdue); (split; [done|split; [done|]]).
    + apply fresh_due_iff.
      assert (initial_last_trained !! g = Some (-999)) as <-; [|done].
      destruct Hdue as (v & Hr & _).
      apply focus_groups_tracked in Hg. unfold tracked_groups in Hg.
      rewrite !elem_of_cons, elem_of_nil in Hg.
      destruct Hg as [->|[->|[->|[->|[->|[]]]]]]; reflexivity.
    + apply fresh_due_iff in Hdue.
      assert (initial_last_trained !! g = Some (-999)) as ->; [|done].
      apply focus_groups_tracked in Hg. unfold tracked_groups in Hg.
      rewrite !elem_of_cons, elem_of_nil in Hg.
      destruct Hg as [->|[->|[->|[->|[->|[]]]]]]; reflexivity.
Qed.

(** A day has an item exactly when it trains a group. *)
Lemma no_training_no_items sts rps eq dp :
  day_ok sts rps eq dp → (∀ g, ¬ trained_on dp g) → items dp = [].
Proof.
  intros (_ & _ & gs & exs & Hits & _ & _ & HF) Hno.
  destruct HF as [|g ex gs exs (Hcat & Hg & _) _]; [done|].
  exfalso. apply (Hno g). unfold trained_on. rewrite Hits, !fmap_cons.
  unfold item_group at 1. simpl.
  rewrite (exercise_by_id_catalog _ Hcat). simpl. rewrite Hg. by left.
Qed.

Lemma training_has_items dp g : trained_on dp g → items dp ≠ [].
Proof.
  unfold trained_on. intros H Hnil. rewrite Hnil in H. by apply elem_of_nil in H.
Qed.

(** A group that every day of the schedule asks for and that has a pool
    is trained exactly on the days of even global index. *)
Lemma alternates (sched : list DayPlan) self g :
  (∀ (i : nat) dp,
     sched !! i = Some dp →
     (trained_on dp g ↔
      g ∈ _focus_groups (focus dp)
      ∧ _filtered self g ≠ []
      ∧ ∀ (j : nat) dp', i = S j → sched !! j = Some dp' → ¬ trained_on dp' g)) →
  (∀ dp, dp ∈ sched → g ∈ _focus_groups (focus dp)) →
  _filtered self g ≠ [] →
  ∀ (i : nat) dp, sched !! i = Some dp → (trained_on dp g ↔ Nat.even i = true).
Proof.
  intros Hchar Hfocus Hpool. induction i as [|j IH]; intros dp Hlk.
  - rewrite (Hchar _ _ Hlk). split; [done|]. intros _.
    split_and!; [by eapply Hfocus, list_elem_of_lookup_2|done|done].
  - destruct (lookup_lt_is_Some_2 sched j) as [dp' Hlk'].
    { apply lookup_lt_Some in Hlk. lia. }
    rewrite (Hchar _ _ Hlk), Nat.even_succ, <- Nat.negb_even.
    specialize (IH _ Hlk'). split.
    + intros (_ & _ & Hprev). specialize (Hprev j dp' eq_refl Hlk').
      destruct (Nat.even j); [|done]. exfalso. by apply Hprev, IH.
    + intros Hodd. split_and!; [by eapply Hfocus, list_elem_of_lookup_2|done|].
      intros j0 dp0 [= <-] Hlk0. rewrite Hlk' in Hlk0. injection Hlk0 as <-.
      rewrite IH. by destruct (Nat.even j).
Qed.

Lemma core_in_every_focus f : "core" ∈ _focus_groups f.
Proof. unfold _focus_groups. repeat case_decide; rewrite !elem_of_cons; tauto. Qed.

Lemma core_pool_nonempty self : _filtered self "core" ≠ [].
Proof.
  intros Hnil.
  assert ({| ex_id := "plank"; ex_name := "Plank"; ex_group := "core";
             ex_equipment := "bodyweight" |} ∈ _filtered self "core") as Hin.
  { apply elem_of_filtered. split_and!; [|done|by right; right].
    unfold EXERCISES. rewrite !elem_of_cons. tauto. }
  rewrite Hnil in Hin. by apply elem_of_nil in Hin.
Qed.

(** ** Properties of the schedule *)

(** X1: the groups of a schedule do not depend on the random draws.  On
    day [i] of a generated plan a group is trained exactly when it belongs
    to the groups of the day's focus, the catalog has an exercise for it
    under the requested equipment, and it was not trained on day [i - 1]. *)
Theorem trained_exactly_when_due cid dpw lvl gl eq weeks rnd :
  ∃ self sched,
    __init__ cid dpw lvl gl eq = Some self
    ∧ generate_schedule cid dpw lvl gl eq weeks rnd = Some sched
    ∧ ∀ (i : nat) dp g,
        sched !! i = Some dp →
        (trained_on dp g ↔
         g ∈ _focus_groups (focus dp)
         ∧ _filtered self g ≠ []
         ∧ ∀ (j : nat) dp', i = S j → sched !! j = Some dp' → ¬ trained_on dp' g).
Proof.
  destruct (fresh_trained_iff cid dpw lvl gl eq weeks rnd)
    as (self & sched & Hinit & Hgen & _ & _ & Hchar).
  by exists self, sched.
Qed.

(** X2: whatever the request, the core is trained exactly on the days of
    even global index (0, 2, 4, ... counted across weeks); so no such day
    is empty, the first day of a plan in particular. *)
Theorem core_every_other_day cid dpw lvl gl eq weeks rnd :
  ∃ sched,
    generate_schedule cid dpw lvl gl eq weeks rnd = Some sched
    ∧ ∀ (i : nat) dp,
        sched !! i = Some dp →
        (trained_on dp "core" ↔ Nat.even i = true)
        ∧ (Nat.even i = true → items dp ≠ []).
Proof.
  destruct (fresh_trained_iff cid dpw lvl gl eq weeks rnd)
    as (self & sched & Hinit & Hgen & _ & _ & Hchar).
  exists sched. split; [done|].
  assert (∀ (i : nat) dp, sched !! i = Some dp →
            (trained_on dp "core" ↔ Nat.even i = true)) as Halt.
  { apply (alternates sched self "core").
    - intros i dp. apply Hchar.
    - intros dp _. apply core_in_every_focus.
    - apply core_pool_nonempty. }
  intros i dp Hlk. split; [by apply Halt|].
  intros Hev. eapply training_has_items. by apply (Halt i dp Hlk).
Qed.

(** X3: full-body plans rest every other day.  For saitama, and for an
    unknown character asking for at most three days, the days of even
    global index have items and the days of odd index have none. *)
Theorem full_body_rest_days cid dpw lvl gl eq weeks rnd :
  cid = "saitama" ∨ (CHAR_ARCH !! cid = None ∧ dpw ≤ 3) →
  ∃ sched,
    generate_schedule cid dpw lvl gl eq weeks rnd = Some sched
    ∧ ∀ (i : nat) dp,
        sched !! i = Some dp →
        (Nat.even i = true → items dp ≠ [])
        ∧ (Nat.even i = false → items dp = []).
Proof.
  intros Hfull.
  destruct (fresh_trained_iff cid dpw lvl gl eq weeks rnd)
    as (self & sched & Hinit & Hgen & Hok & Hfocus & Hchar).
  assert (Forall (λ f, f = "full") (template self)) as Htpl.
  { destruct (init_spec cid dpw lvl gl eq) as (t & Ht & _ & Hi).
    rewrite Hi in Hinit. injection Hinit as <-. simpl.
    destruct Hfull as [->|[Hc Hd]].
    - destruct (make_template_known "saitama" saitama (Z.max 1 (Z.min 6 dpw)))
        as (t' & Ht' & _ & _ & Htake & Hpad); [done|lia|].
      rewrite Ht in Ht'. injection Ht' as <-.
      destruct (decide (Z.max 1 (Z.min 6 dpw) ≤ Z.of_nat (length (arch_template saitama)))).
      + rewrite Htake by done. apply Forall_take. by repeat constructor.
      + destruct Hpad as (l & [= <-] & ->); [lia|].
        apply Forall_app. split; [by repeat constructor|]. by apply Forall_replicate.
    - destruct (make_template_unknown cid (Z.max 1 (Z.min 6 dpw)) Hc)
        as (t' & Ht' & _ & H3 & _).
      rewrite Ht in Ht'. injection Ht' as <-. rewrite H3 by lia. by repeat constructor. }
  assert (∀ dp, dp ∈ sched → focus dp = "full") as Hf.
  { intros dp Hdp.
    pose proof (proj1 (Forall_forall _ _) Hfocus dp Hdp) as Hin.
    exact (proj1 (Forall_forall _ _) Htpl _ Hin). }
  exists sched. split; [done|]. intros i dp Hlk.
  rewrite Forall_forall in Hok.
  pose proof (Hok dp (list_elem_of_lookup_2 _ _ _ Hlk)) as Hdp.
  split.
  - intros Hev. apply (training_has_items dp "core").
    apply (alternates sched self "core"
             (λ i dp, Hchar i dp "core")
             (λ dp _, core_in_every_focus _) (core_pool_nonempty self) i dp Hlk). done.
  - intros Hodd. eapply no_training_no_items; [exact Hdp|]. intros g Hg.
    pose proof (proj1 (Hchar i dp g Hlk) Hg) as (Hgf & Hpool & _).
    assert (Nat.even i = true); [|congruence].
    apply (alternates sched self g (λ i dp, Hchar i dp g)) with (dp := dp); try done.
    intros dp0 Hdp0. rewrite (Hf _ Hdp0).
    by rewrite (Hf dp (list_elem_of_lookup_2 _ _ _ Hlk)) in Hgf.
Qed.

Lemma full_body_rest_days_witness :
  ("saitama" = "saitama" ∨ (CHAR_ARCH !! "saitama" = None ∧ 5 ≤ 3)) ∧
  ∃ sched,
    generate_schedule "saitama" 5 "beginner" "athletic" "dumbbells" 2 (λ n, n) = Some sched
    ∧ ∀ (i : nat) dp,
        sched !! i = Some dp →
        (Nat.even i = true → items dp ≠ [])
        ∧ (Nat.even i = false → items dp = []).
Proof.
  split; [by left|].
  apply (full_body_rest_days "saitama" 5 "beginner" "athletic" "dumbbells" 2 (λ n, n)).
  by left.
Defined.

(** ** The state a call leaves behind *)

(** X4: after [generate], [last_trained] agrees with the schedule.  For
    every group, either no day of the schedule trains it and its entry is
    the one from before the call, or its entry is the global index of the
    last day that trains it. *)
Theorem last_trained_records_schedule self weeks rnd k :
  well_formed self →
  ∃ sched self' k',
    generate self weeks rnd k = Some (sched, self', k')
    ∧ ∀ g,
        (last_trained self' !! g = last_trained self !! g
         ∧ ∀ dp, dp ∈ sched → ¬ trained_on dp g)
        ∨ (∃ (j : nat) dp,
             last_trained self' !! g = Some (Z.of_nat j)
             ∧ sched !! j = Some dp ∧ trained_on dp g
             ∧ ∀ (j' : nat) dp', (j < j')%nat → sched !! j' = Some dp' →
                 ¬ trained_on dp' g).
Proof.
  intros Hwf. destruct (generate_total self weeks rnd k Hwf) as (st & Hgen & _ & Htrace).
  exists (gs_schedule st), (gs_self st), (gs_draws st). split; [done|].
  destruct Htrace as (_ & _ & _ & Hlast & _). intros g. rewrite Hlast.
  apply recorded_cases.
Qed.

Lemma last_trained_records_schedule_witness :
  well_formed demo_carried_plan ∧
  ∃ sched self' k',
    generate demo_carried_plan 1 (λ n, n) 0 = Some (sched, self', k')
    ∧ ∀ g,
        (last_trained self' !! g = last_trained demo_carried_plan !! g
         ∧ ∀ dp, dp ∈ sched → ¬ trained_on dp g)
        ∨ (∃ (j : nat) dp,
             last_trained self' !! g = Some (Z.of_nat j)
             ∧ sched !! j = Some dp ∧ trained_on dp g
             ∧ ∀ (j' : nat) dp', (j < j')%nat → sched !! j' = Some dp' →
                 ¬ trained_on dp' g).
Proof.
  assert (well_formed demo_carried_plan) as Hwf.
  { split; [repeat constructor; by eexists|compute_done]. }
  split; [exact Hwf|].
  exact (last_trained_records_schedule demo_carried_plan 1 (λ n, n) 0%nat Hwf).
Defined.

(** X5: [random.choice] is called once for every item and never
    otherwise: the call advances the random stream by the number of items
    of the schedule. *)
Theorem one_draw_per_item self weeks rnd k :
  well_formed self →
  ∃ sched self' k',
    generate self weeks rnd k = Some (sched, self', k')
    ∧ k' = (k + total_items sched)%nat.
Proof.
  intros Hwf. destruct (generate_total self weeks rnd k Hwf) as (st & Hgen & _ & Htrace).
  exists (gs_schedule st), (gs_self st), (gs_draws st). split; [done|].
  by destruct Htrace as (_ & _ & Hdraws & _).
Qed.

Lemma one_draw_per_item_witness :
  well_formed demo_plan ∧
  ∃ sched self' k',
    generate demo_plan 2 (λ n, n) 7 = Some (sched, self', k')
    ∧ k' = (7 + total_items sched)%nat.
Proof.
  assert (well_formed demo_plan) as Hwf.
  { split; [repeat constructor; by eexists|compute_done]. }
  split; [exact Hwf|].
  exact (one_draw_per_item demo_plan 2 (λ n, n) 7%nat Hwf).
Defined.

(** X6: a group outside chest, back, legs, shoulders and core is never
    trained and its entry in [last_trained] is never written; the "arms"
    entry, which the constructor creates, comes out of every call as it
    went in. *)
Theorem untracked_groups_untouched self weeks rnd k :
  well_formed self →
  ∃ sched self' k',
    generate self weeks rnd k = Some (sched, self', k')
    ∧ (∀ g, g ∉ tracked_groups →
         last_trained self' !! g = last_trained self !! g
         ∧ ∀ dp, dp ∈ sched → ¬ trained_on dp g)
    ∧ last_trained self' !! "arms" = last_trained self !! "arms".
Proof.
  intros Hwf. destruct (generate_total self weeks rnd k Hwf) as (st & Hgen & _ & Htrace).
  exists (gs_schedule st), (gs_self st), (gs_draws st). split; [done|].
  destruct Htrace as (_ & _ & _ & Hlast & Hdays).
  assert (∀ g, g ∉ tracked_groups →
            last_trained (gs_self st) !! g = last_trained self !! g
            ∧ ∀ dp, dp ∈ gs_schedule st → ¬ trained_on dp g) as Hun.
  { intros g Hg.
    assert (∀ dp, dp ∈ gs_schedule st → ¬ trained_on dp g) as Hno.
    { intros dp [i Hi]%list_elem_of_lookup_1 Htr.
      apply (Hdays i dp g Hi) in Htr as (Hin & _).
      by apply focus_groups_tracked in Hin. }
    split; [|done]. rewrite Hlast.
    destruct (recorded_cases (gs_schedule st) g (last_trained self !! g))
      as [[Hr _]|(j & dp & _ & Hlk & Htr & _)]; [done|].
    exfalso. eapply Hno; [|exact Htr]. by eapply list_elem_of_lookup_2. }
  split; [done|]. apply Hun. compute_done.
Qed.

Lemma untracked_groups_untouched_witness :
  well_formed demo_carried_plan ∧
  ∃ sched self' k',
    generate demo_carried_plan 4 (λ n, n) 0 = Some (sched, self', k')
    ∧ (∀ g, g ∉ tracked_groups →
         last_trained self' !! g = last_trained demo_carried_plan !! g
         ∧ ∀ dp, dp ∈ sched → ¬ trained_on dp g)
    ∧ last_trained self' !! "arms" = last_trained demo_carried_plan !! "arms".
Proof.
  assert (well_formed demo_carried_plan) as Hwf.
  { split; [repeat constructor; by eexists|compute_done]. }
  split; [exact Hwf|].
  exact (untracked_groups_untouched demo_carried_plan 4 (λ n, n) 0%nat Hwf).
Defined.

(** X7: the recovery rule also counts what the object remembers from an
    earlier call, against a day counter that starts at 0 again: a group
    whose entry is [v0] at the call is not trained before global day
    [v0 + 2] of the new schedule. *)
Theorem carried_state_delays self weeks rnd k :
  well_formed self →
  ∃ sched self' k',
    generate self weeks rnd k = Some (sched, self', k')
    ∧ ∀ (i : nat) dp g v0,
        last_trained self !! g = Some v0 → sched !! i = Some dp →
        trained_on dp g → v0 + 2 ≤ Z.of_nat i.
Proof.
  intros Hwf. destruct (generate_total self weeks rnd k Hwf) as (st & Hgen & _ & Htrace).
  exists (gs_schedule st), (gs_self st), (gs_draws st). split; [done|].
  destruct Htrace as (_ & _ & _ & _ & Hdays).
  intros i. induction (lt_wf i) as [i _ IH]. intros dp g v0 Hv0 Hlk Htr.
  apply (Hdays i dp g Hlk) in Htr as (_ & _ & v & Hr & Hdue).
  rewrite Hv0 in Hr.
  destruct (recorded_cases (take i (gs_schedule st)) g (Some v0))
    as [[Hr' _]|(j & dp0 & Hr' & Hlk0 & Htr0 & _)]; rewrite Hr' in Hr; simplify_eq.
  - lia.
  - apply lookup_take_Some in Hlk0 as [Hlk0 Hlt].
    specialize (IH j Hlt dp0 g v0 Hv0 Hlk0 Htr0). lia.
Qed.

Lemma carried_state_delays_witness :
  well_formed demo_carried_plan ∧
  ∃ sched self' k',
    generate demo_carried_plan 1 (λ n, n) 0 = Some (sched, self', k')
    ∧ ∀ (i : nat) dp g v0,
        last_trained demo_carried_plan !! g = Some v0 → sched !! i = Some dp →
        trained_on dp g → v0 + 2 ≤ Z.of_nat i.
Proof.
  assert (well_formed demo_carried_plan) as Hwf.
  { split; [repeat constructor; by eexists|compute_done]. }
  split; [exact Hwf|].
  exact (carried_state_delays demo_carried_plan 1 (λ n, n) 0%nat Hwf).
Defined.

(** After a three-day call the object holds day 2 for the groups of the
    last day; a second call on it trains nothing before its day 4. *)
Example second_call_is_delayed :
  option_map (λ r, map day_summary r.1.1) (generate demo_carried_plan 2 (λ _, 0%nat) 0)
  = Some [(1, 0, []); (1, 1, []); (1, 2, []);
          (2, 0, []); (2, 1, ["pushup"; "pullup"; "squat-bw"; "plank"]); (2, 2, [])].
Proof. vm_compute. reflexivity. Qed.

(** ** The order in which a day visits its groups *)

Lemma insert_by_key_filter v x l :
  filter (λ p : Z * string, p.1 = v) (insert_by_key x l)
  = filter (λ p : Z * string, p.1 = v) (x :: l).
Proof.
  induction l as [|y l IH]; simpl; [done|].
  case_decide as Hle; [done|].
  rewrite filter_cons, IH, !filter_cons.
  destruct (decide (y.1 = v)), (decide (x.1 = v)); try done. lia.
Qed.

Lemma sort_by_key_stable v l :
  filter (λ p : Z * string, p.1 = v) (sort_by_key l)
  = filter (λ p : Z * string, p.1 = v) l.
Proof.
  induction l as [|x l IH]; simpl; [done|].
  by rewrite insert_by_key_filter, !filter_cons, IH.
Qed.

Lemma filter_keyed (m : gmap string Z) v (l : list (Z * string)) :
  Forall (λ p, m !! p.2 = Some p.1) l →
  filter (λ g, m !! g = Some v) (l.*2) = (filter (λ p : Z * string, p.1 = v) l).*2.
Proof.
  induction 1 as [|p l Hp _ IH]; [done|].
  rewrite fmap_cons, !filter_cons, IH.
  destruct (decide (m !! p.2 = Some v)) as [Hv|Hv], (decide (p.1 = v)) as [Hk|Hk];
    try done; exfalso; [apply Hk|apply Hv]; congruence.
Qed.

Lemma zip_keyed (m : gmap string Z) groups keys :
  Forall2 (λ g k, m !! g = Some k) groups keys →
  Forall (λ p, m !! p.2 = Some p.1) (zip keys groups).
Proof. induction 1; simpl; by constructor. Qed.

Lemma StronglySorted_lookup {A} (R : relation A) l (i j : nat) x y :
  StronglySorted R l → (i < j)%nat → l !! i = Some x → l !! j = Some y → R x y.
Proof.
  intros Hs. revert i j. induction Hs as [|a l _ IH Hall]; intros i j Hij Hi Hj; [done|].
  destruct j as [|j]; [lia|]. simpl in Hj. destruct i as [|i]; simpl in Hi.
  - simplify_eq. rewrite Forall_forall in Hall. by eapply Hall, list_elem_of_lookup_2.
  - apply (IH i j); [lia|done..].
Qed.

(** X8: the groups of a day are visited stalest first.  [sort_groups]
    fails exactly when a group has no entry in [last_trained]; otherwise
    its result is a permutation of the groups in which the entries never
    decrease, and groups with the same entry keep the order in which the
    focus lists them. *)
Theorem groups_visited_stalest_first self groups :
  (sort_groups self groups = None ↔ ∃ g, g ∈ groups ∧ last_trained self !! g = None)
  ∧ ∀ gs,
      sort_groups self groups = Some gs →
      gs ≡ₚ groups
      ∧ (∀ (i j : nat) g1 g2 v1 v2,
           (i < j)%nat → gs !! i = Some g1 → gs !! j = Some g2 →
           last_trained self !! g1 = Some v1 → last_trained self !! g2 = Some v2 →
           v1 ≤ v2)
      ∧ (∀ v, filter (λ g, last_trained self !! g = Some v) gs
              = filter (λ g, last_trained self !! g = Some v) groups).
Proof.
  split.
  - unfold sort_groups.
    destruct (mapM (λ g, last_trained self !! g) groups) as [keys|] eqn:E; simpl.
    + split; [done|]. intros (g & Hg & Hnone).
      apply mapM_Some_1 in E. apply list_elem_of_lookup_1 in Hg as [i Hi].
      destruct (Forall2_lookup_l _ _ _ _ _ E Hi) as (k & _ & Hk). congruence.
    + split; [|done]. intros _. apply mapM_None_1, Exists_exists in E.
      destruct E as (g & Hg & Hnone). by exists g.
  - intros gs Hsort. split; [by eapply sort_groups_Permutation|].
    unfold sort_groups in Hsort.
    destruct (mapM (λ g, last_trained self !! g) groups) as [keys|] eqn:E;
      simplify_eq/=.
    pose proof (zip_keyed _ _ _ (mapM_Some_1 _ _ _ E)) as Hzip.
    assert (Forall (λ p, last_trained self !! p.2 = Some p.1)
              (sort_by_key (zip keys groups))) as Hsorted_keyed.
    { by rewrite sort_by_key_Permutation. }
    split.
    + intros i j g1 g2 v1 v2 Hij H1 H2 Hv1 Hv2.
      rewrite list_lookup_fmap in H1, H2.
      destruct (sort_by_key (zip keys groups) !! i) as [p1|] eqn:Hp1; simplify_eq/=.
      destruct (sort_by_key (zip keys groups) !! j) as [p2|] eqn:Hp2; simplify_eq/=.
      rewrite Forall_forall in Hsorted_keyed.
      pose proof (Hsorted_keyed _ (list_elem_of_lookup_2 _ _ _ Hp1)) as Hk1.
      pose proof (Hsorted_keyed _ (list_elem_of_lookup_2 _ _ _ Hp2)) as Hk2.
      simpl in Hk1, Hk2. rewrite Hv1 in Hk1. rewrite Hv2 in Hk2. simplify_eq.
      assert (Transitive (λ a b : Z * string, a.1 ≤ b.1)) by (intros ???; lia).
      eapply (StronglySorted_lookup (λ a b : Z * string, a.1 ≤ b.1)
                (sort_by_key (zip keys groups)) i j p1 p2); try done.
      apply Sorted_StronglySorted; [done|]. apply sort_by_key_Sorted.
    + intros v. rewrite (filter_keyed _ _ _ Hsorted_keyed), sort_by_key_stable.
      rewrite <- (filter_keyed _ _ _ Hzip). rewrite snd_zip; [done|].
      apply length_mapM in E. lia.
Qed.

Example sort_groups_next_day :
  sort_groups (gs_self demo_next_day) (_focus_groups "full")
  = Some ["shoulders"; "chest"; "back"; "legs"; "core"].
Proof. reflexivity. Qed.

Example sort_groups_missing_key :
  sort_groups demo_used_plan (_focus_groups "push") = None.
Proof. reflexivity. Qed.

(** ** The pools *)

Lemma filter_sublist_impl {A} (P Q : A → Prop)
    `{∀ x, Decision (P x)} `{∀ x, Decision (Q x)} (l : list A) :
  (∀ x, P x → Q x) → filter P l `sublist_of` filter Q l.
Proof.
  intros HPQ. induction l as [|x l IH]; [done|]. rewrite !filter_cons.
  destruct (decide (P x)) as [HP|HP], (decide (Q x)) as [HQ|HQ].
  - by apply sublist_skip.
  - destruct HQ. by apply HPQ.
  - by apply sublist_cons.
  - done.
Qed.

Lemma filter_nil_iff {A} (P : A → Prop) `{∀ x, Decision (P x)} (l : list A) :
  filter P l = [] ↔ Forall (λ x, ¬ P x) l.
Proof.
  induction l as [|x l IH]; [by split|]. rewrite filter_cons, Forall_cons.
  destruct (decide (P x)); [split; [done|tauto]|]. rewrite IH. tauto.
Qed.

Lemma filter_ext_Forall {A} (P Q : A → Prop)
    `{∀ x, Decision (P x)} `{∀ x, Decision (Q x)} (l : list A) :
  Forall (λ x, P x ↔ Q x) l → filter P l = filter Q l.
Proof.
  induction 1 as [|x l HPQ _ IH]; [done|]. rewrite !filter_cons, IH.
  destruct (decide (P x)), (decide (Q x)); tauto.
Qed.

Lemma catalog_equipment :
  Forall (λ ex, ex_equipment ex ∈ ["bodyweight"; "dumbbells"; "gym"]) EXERCISES.
Proof. compute_done. Qed.

Lemma catalog_groups : Forall (λ ex, ex_group ex ∈ tracked_groups) EXERCISES.
Proof. compute_done. Qed.

Lemma filtered_other_equipment eq g :
  eq ≠ "gym" → eq ≠ "dumbbells" →
  filtered_loop eq g EXERCISES [] = filtered_loop "bodyweight" g EXERCISES [].
Proof.
  intros Hgym Hdb. rewrite !filtered_loop_filter. simpl. apply filter_ext_Forall.
  eapply Forall_impl; [apply catalog_equipment|]. intros ex Hex. simpl in Hex.
  unfold eligible. rewrite !elem_of_cons, elem_of_nil in Hex.
  destruct Hex as [He|[He|[He|[]]]]; rewrite He; split; intros (? & Hel);
    (split; [done|]); destruct Hel as [?|[?|?]]; auto; congruence.
Qed.

(** X9: more equipment never shrinks a pool.  For every group the
    bodyweight pool is a sublist of the pool of any equipment, which is a
    sublist of the gym pool, the gym pool being all the catalog exercises
    of the group; an equipment that is neither "gym" nor "dumbbells" gets
    exactly the bodyweight pool. *)
Theorem pool_grows_with_equipment self g :
  filtered_loop "bodyweight" g EXERCISES [] `sublist_of` _filtered self g
  ∧ _filtered self g `sublist_of` filtered_loop "gym" g EXERCISES []
  ∧ filtered_loop "gym" g EXERCISES [] = filter (λ ex, ex_group ex = g) EXERCISES
  ∧ (equipment self ≠ "gym" → equipment self ≠ "dumbbells" →
       _filtered self g = filtered_loop "bodyweight" g EXERCISES []).
Proof.
  rewrite filtered_spec, !filtered_loop_filter. simpl. split_and!.
  - apply filter_sublist_impl. unfold eligible. intros ex (? & [?|[?|?]]); auto; done.
  - apply filter_sublist_impl. unfold eligible. intros ex (? & _); auto.
  - apply filter_ext_Forall, Forall_forall. unfold eligible. intros ex _. tauto.
  - intros Hgym Hdb.
    pose proof (filtered_other_equipment (equipment self) g Hgym Hdb) as H.
    rewrite !filtered_loop_filter in H. exact H.
Qed.

(** X10: the only way a pool is empty.  The pool of a group is empty
    exactly when the group is not one of chest, back, legs, shoulders and
    core, or it is the shoulders and the equipment is neither "gym" nor
    "dumbbells". *)
Theorem pool_empty_iff self g :
  _filtered self g = [] ↔
  g ∉ tracked_groups
  ∨ (g = "shoulders" ∧ equipment self ≠ "gym" ∧ equipment self ≠ "dumbbells").
Proof.
  rewrite filtered_spec, filter_nil_iff, Forall_forall. split.
  - intros Hall.
    assert (∀ (i : nat) ex, EXERCISES !! i = Some ex → ex_group ex = g →
              ¬ eligible (equipment self) ex) as Hno.
    { intros i ex Hi Hg Hel. apply (Hall ex); [by eapply list_elem_of_lookup_2|done]. }
    destruct (decide (g ∈ tracked_groups)) as [Hin|]; [right|by left].
    unfold tracked_groups in Hin. rewrite !elem_of_cons, elem_of_nil in Hin.
    destruct Hin as [->|[->|[->|[->|[->|[]]]]]].
    + destruct (Hno 0%nat _ eq_refl eq_refl). by right; right.
    + destruct (Hno 4%nat _ eq_refl eq_refl). by right; right.
    + destruct (Hno 5%nat _ eq_refl eq_refl). by right; right.
    + split; [done|]. split; intros He; apply (Hno 1%nat _ eq_refl eq_refl).
      * by left.
      * right; left. by rewrite He.
    + destruct (Hno 8%nat _ eq_refl eq_refl). by right; right.
  - intros [Hout|(-> & Hgym & Hdb)] ex Hex (Hgrp & Hel).
    + apply Hout. rewrite <- Hgrp.
      by apply (proj1 (Forall_forall _ _) catalog_groups).
    + assert (ex_equipment ex = "dumbbells") as He.
      { revert Hgrp. apply (proj1 (Forall_forall
          (λ ex, ex_group ex = "shoulders" → ex_equipment ex = "dumbbells") EXERCISES));
          [compute_done|done]. }
      destruct Hel as [?|[?|?]]; congruence.
Qed.

(** ** The object and the endpoint *)

(** X11: how many days a week really has.  [__init__] never fails; the
    template only holds tags of [DayFocus]; its length is the clamped day
    count for a known character and the larger of 3 and the clamped day
    count for an unknown one, so [self.days] and [len(self.template)]
    differ exactly for an unknown character asking for fewer than three
    days. *)
Theorem template_length cid dpw lvl gl eq :
  ∃ self,
    __init__ cid dpw lvl gl eq = Some self
    ∧ days self = Z.max 1 (Z.min 6 dpw)
    ∧ Forall (λ f, f ∈ DayFocus) (template self)
    ∧ Z.of_nat (length (template self))
      = (if decide (is_Some (CHAR_ARCH !! cid)) then days self
         else Z.max 3 (days self))
    ∧ (Z.of_nat (length (template self)) ≠ days self ↔
       CHAR_ARCH !! cid = None ∧ dpw < 3).
Proof.
  destruct (init_spec cid dpw lvl gl eq) as (t & Ht & Hv & Hinit).
  eexists. split; [exact Hinit|]. simpl. split; [done|]. split; [done|].
  destruct (CHAR_ARCH !! cid) as [a|] eqn:Ha.
  - destruct (make_template_known cid a (Z.max 1 (Z.min 6 dpw)) Ha)
      as (t' & Ht' & Hlen & _); [lia|].
    rewrite Ht in Ht'. injection Ht' as <-.
    rewrite decide_True by (by eexists). split; [done|].
    split; [done|]. by intros [? _].
  - destruct (make_template_unknown cid (Z.max 1 (Z.min 6 dpw)) Ha)
      as (t' & Ht' & _ & H3 & H4 & H5 & H6).
    rewrite Ht in Ht'. injection Ht' as <-.
    rewrite decide_False by (by intros [? ?]).
    assert (Z.of_nat (length t) = Z.max 3 (Z.max 1 (Z.min 6 dpw))) as Hlen.
    { destruct (decide (Z.max 1 (Z.min 6 dpw) ≤ 3)); [rewrite H3 by done; simpl; lia|].
      destruct (decide (Z.max 1 (Z.min 6 dpw) = 4)); [rewrite H4 by done; simpl; lia|].
      destruct (decide (Z.max 1 (Z.min 6 dpw) = 5)); [rewrite H5 by done; simpl; lia|].
      rewrite H6 by lia. simpl. lia. }
    split; [done|]. rewrite Hlen. split; [intros ?; split; [done|lia]|intros [_ ?]; lia].
Qed.



(** X13: what sets and reps can be.  For every object the sets are 3 or 4
    and the reps lie between 4 and 12; strength never gives more than 6
    reps, hypertrophy never fewer than 8 and any other goal never fewer
    than 10; for a known character the level plays no part. *)
Theorem sets_reps_bounds self :
  ((_sets_reps self).1 = 3 ∨ (_sets_reps self).1 = 4)
  ∧ 4 ≤ (_sets_reps self).2 ≤ 12
  ∧ (goal self = "strength" → (_sets_reps self).2 ≤ 6)
  ∧ (goal self = "hypertrophy" → 8 ≤ (_sets_reps self).2)
  ∧ (goal self ≠ "strength" → goal self ≠ "hypertrophy" → 10 ≤ (_sets_reps self).2)
  ∧ (∀ other,
       is_Some (CHAR_ARCH !! character_id self) →
       character_id other = character_id self → goal other = goal self →
       _sets_reps other = _sets_reps self).
Proof.
  unfold _sets_reps.
  destruct (CHAR_ARCH !! character_id self) as [a|] eqn:Ha.
  - assert (a = goku ∨ a = luffy ∨ a = asta ∨ a = saitama) as Hcases.
    { apply CHAR_ARCH_lookup in Ha. rewrite !elem_of_cons, elem_of_nil in Ha.
      destruct Ha as [?|[?|[?|[?|[]]]]]; simplify_eq; auto. }
    split_and!.
    1-6: destruct Hcases as [Hc|[Hc|[Hc|Hc]]]; rewrite Hc; simpl; intros;
      repeat case_decide; first [lia|by left|by right|congruence].
    intros other _ Hc Hg. by rewrite Hc, Hg, Ha.
  - simpl. split_and!.
    1-6: intros; repeat case_decide; first [lia|by left|by right|congruence].
    by intros other [? ?].
Qed.

(** ** Level, goal, sets and reps do not steer the schedule *)

Lemma group_loop_shape rnd s1 r1 s2 r2 cur groups : ∀ a b its1 its2 k,
  same_plan a b → exercise_id <$> its1 = exercise_id <$> its2 →
  option_Forall2
    (λ x y, same_plan x.1.1 y.1.1
            ∧ exercise_id <$> x.1.2 = exercise_id <$> y.1.2 ∧ x.2 = y.2)
    (group_loop rnd s1 r1 cur groups a its1 k)
    (group_loop rnd s2 r2 cur groups b its2 k).
Proof.
  induction groups as [|g rest IH]; intros a b its1 its2 k Hab Hits; simpl.
  { by constructor. }
  pose proof Hab as (He & Hl & Ht). rewrite Hl.
  destruct (last_trained b !! g) as [v|]; simpl; [|by constructor].
  case_decide; [by apply IH|].
  assert (_filtered a g = _filtered b g) as -> by (unfold _filtered; by rewrite He).
  destruct (_filtered b g) as [|e pool]; [by apply IH|].
  destruct (random_choice rnd k (e :: pool)) as [choice|]; simpl; [|by constructor].
  assert (length its1 = length its2) as Hlen.
  { by rewrite <- (length_fmap exercise_id its1), Hits, length_fmap. }
  assert (exercise_id <$> its1 ++ [{| exercise_id := ex_id choice; sets := s1; reps := r1 |}]
          = exercise_id <$> its2 ++ [{| exercise_id := ex_id choice; sets := s2; reps := r2 |}])
    as Hits'.
  { by rewrite !fmap_app, Hits. }
  assert (same_plan (set_last_trained g cur a) (set_last_trained g cur b)) as Hab'.
  { unfold same_plan. simpl. by rewrite He, Hl, Ht. }
  rewrite !length_app, Hlen. simpl.
  case_decide; [by constructor|]. by apply IH.
Qed.

Lemma sort_groups_same_plan a b groups :
  same_plan a b → sort_groups a groups = sort_groups b groups.
Proof. intros (_ & Hl & _). unfold sort_groups. by rewrite Hl. Qed.

Lemma day_step_shape rnd s1 r1 s2 r2 w d f st1 st2 :
  same_shape st1 st2 →
  option_Forall2 same_shape (day_step rnd s1 r1 w d f st1) (day_step rnd s2 r2 w d f st2).
Proof.
  intros (Hab & Hsched & Hcur & Hk). unfold day_step.
  rewrite (sort_groups_same_plan _ _ _ Hab), Hcur, Hk.
  destruct (sort_groups (gs_self st2) (_focus_groups f)) as [groups|]; simpl;
    [|by constructor].
  destruct (group_loop_shape rnd s1 r1 s2 r2 (gs_current_day_index st2) groups
              (gs_self st1) (gs_self st2) [] [] (gs_draws st2) Hab eq_refl)
    as [[[a' i1] k1] [[b' i2] k2] (Hab' & Hi & Hk')|]; simpl in *; [|by constructor].
  unfold mkDayPlan. case_decide; simpl; [|by constructor].
  constructor. unfold same_shape. simpl. split_and!; [done| |done..].
  rewrite !fmap_app, Hsched. simpl. unfold day_shape at 2 4. simpl. by rewrite Hi.
Qed.

Lemma day_loop_shape rnd s1 r1 s2 r2 w tpl : ∀ d st1 st2,
  same_shape st1 st2 →
  option_Forall2 same_shape (day_loop rnd s1 r1 w d tpl st1) (day_loop rnd s2 r2 w d tpl st2).
Proof.
  induction tpl as [|f tpl IH]; intros d st1 st2 Hst; simpl; [by constructor|].
  destruct (day_step_shape rnd s1 r1 s2 r2 w d f st1 st2 Hst) as [x y Hxy|]; simpl;
    [by apply IH|by constructor].
Qed.

Lemma week_loop_shape rnd s1 r1 s2 r2 ws : ∀ st1 st2,
  same_shape st1 st2 →
  option_Forall2 same_shape (week_loop rnd s1 r1 ws st1) (week_loop rnd s2 r2 ws st2).
Proof.
  induction ws as [|w ws IH]; intros st1 st2 Hst; simpl; [by constructor|].
  assert (template (gs_self st1) = template (gs_self st2)) as ->.
  { by destruct Hst as ((_ & _ & ?) & _). }
  destruct (day_loop_shape rnd s1 r1 s2 r2 w (template (gs_self st2)) 0 st1 st2 Hst)
    as [x y Hxy|]; simpl; [by apply IH|by constructor].
Qed.

(** X14: level and goal only set sets and reps.  Two requests that agree
    on character, day count, equipment and weeks, run on the same random
    stream, get schedules with the same weeks, day indices, focus tags
    and exercise ids, whatever their levels and goals. *)
Theorem level_goal_do_not_steer cid dpw lvl1 gl1 lvl2 gl2 eq weeks rnd :
  ∃ sched1 sched2,
    generate_schedule cid dpw lvl1 gl1 eq weeks rnd = Some sched1
    ∧ generate_schedule cid dpw lvl2 gl2 eq weeks rnd = Some sched2
    ∧ day_shape <$> sched1 = day_shape <$> sched2.
Proof.
  destruct (generate_schedule_spec cid dpw lvl1 gl1 eq weeks rnd)
    as (a & st1 & Ha & Hg1 & Hs1 & _).
  destruct (generate_schedule_spec cid dpw lvl2 gl2 eq weeks rnd)
    as (b & st2 & Hb & Hg2 & Hs2 & _).
  exists (gs_schedule st1), (gs_schedule st2). split; [done|]. split; [done|].
  assert (same_plan a b) as Hab.
  { destruct (init_spec cid dpw lvl1 gl1 eq) as (t1 & Ht1 & _ & Hi1).
    destruct (init_spec cid dpw lvl2 gl2 eq) as (t2 & Ht2 & _ & Hi2).
    rewrite Ht1 in Ht2. rewrite Hi1 in Ha. rewrite Hi2 in Hb. by simplify_eq. }
  unfold generate in Hg1, Hg2.
  destruct (_sets_reps a) as [s1 r1]. destruct (_sets_reps b) as [s2 r2].
  assert (same_shape
            {| gs_self := a; gs_schedule := []; gs_current_day_index := 0; gs_draws := 0 |}
            {| gs_self := b; gs_schedule := []; gs_current_day_index := 0; gs_draws := 0 |})
    as Hst0 by (by split).
  destruct (week_loop_shape rnd s1 r1 s2 r2 (py_range 1 (weeks + 1)) _ _ Hst0)
    as [x y (_ & Hxy & _)|]; [|done].
  simpl in Hg1, Hg2. injection Hg1 as <- _ _. injection Hg2 as <- _ _. exact Hxy.
Qed.

(** ** Longer plans *)

Lemma week_loop_app rnd sts rps ws1 ws2 : ∀ st,
  week_loop rnd sts rps (ws1 ++ ws2) st
  = week_loop rnd sts rps ws1 st ≫= week_loop rnd sts rps ws2.
Proof.
  induction ws1 as [|w ws1 IH]; intros st; simpl; [done|].
  destruct (day_loop rnd sts rps w 0 (template (gs_self st)) st); simpl; [|done].
  apply IH.
Qed.

Lemma week_loop_prefix rnd sts rps ws st st' :
  week_loop rnd sts rps ws st = Some st' →
  gs_schedule st `prefix_of` gs_schedule st'.
Proof.
  intros H.
  apply (week_loop_lift (λ s, gs_schedule st `prefix_of` gs_schedule s)
           rnd sts rps) with (ws := ws) (st := st); [|done..].
  intros w d f s s' Hstep Hpre.
  destruct (day_step_char _ _ _ _ _ _ _ _ Hstep) as (dp & -> & _).
  by apply prefix_app_r.
Qed.

(** X15: asking for more weeks only adds days at the end.  On the same
    random stream the schedule for [weeks1] weeks is a prefix of the
    schedule for any [weeks2 >= weeks1]. *)
Theorem more_weeks_extend cid dpw lvl gl eq weeks1 weeks2 rnd :
  weeks1 ≤ weeks2 →
  ∃ sched1 sched2,
    generate_schedule cid dpw lvl gl eq weeks1 rnd = Some sched1
    ∧ generate_schedule cid dpw lvl gl eq weeks2 rnd = Some sched2
    ∧ sched1 `prefix_of` sched2.
Proof.
  intros Hle.
  destruct (generate_schedule_spec cid dpw lvl gl eq weeks1 rnd)
    as (a & st1 & Ha & Hg1 & Hs1 & _).
  destruct (generate_schedule_spec cid dpw lvl gl eq weeks2 rnd)
    as (b & st2 & Hb & Hg2 & Hs2 & _).
  rewrite Ha in Hb. injection Hb as <-.
  exists (gs_schedule st1), (gs_schedule st2). split; [done|]. split; [done|].
  unfold generate, py_range in Hg1, Hg2. destruct (_sets_reps a) as [sts rps].
  replace (weeks1 + 1 - 1) with weeks1 in Hg1 by lia.
  replace (weeks2 + 1 - 1) with weeks2 in Hg2 by lia.
  destruct (decide (weeks1 ≤ 0)) as [Hneg|Hpos].
  { rewrite seqZ_nil in Hg1 by done. simpl in Hg1. injection Hg1 as <- _ _.
    apply prefix_nil. }
  replace weeks2 with (weeks1 + (weeks2 - weeks1)) in Hg2 by lia.
  rewrite seqZ_app, week_loop_app in Hg2 by lia.
  destruct (week_loop rnd sts rps (seqZ 1 weeks1) _) as [s1|]; simpl in Hg1; [|done].
  simpl in Hg2.
  destruct (week_loop rnd sts rps (seqZ (1 + weeks1) (weeks2 - weeks1)) s1)
    as [s2|] eqn:Hw2; simpl in Hg2; [|done].
  injection Hg1 as <- _ _. injection Hg2 as <- _ _.
  by eapply week_loop_prefix.
Qed.

Lemma more_weeks_extend_witness :
  2 ≤ 4 ∧
  ∃ sched1 sched2,
    generate_schedule "luffy" 4 "beginner" "athletic" "gym" 2 (λ n, n) = Some sched1
    ∧ generate_schedule "luffy" 4 "beginner" "athletic" "gym" 4 (λ n, n) = Some sched2
    ∧ sched1 `prefix_of` sched2.
Proof.
  split; [lia|].
  apply (more_weeks_extend "luffy" 4 "beginner" "athletic" "gym" 2 4 (λ n, n)). lia.
Defined.

(** ** How much of the random stream a call looks at *)

Lemma group_loop_agree rnd1 rnd2 sts rps cur groups : ∀ self its k self' its' k',
  group_loop rnd1 sts rps cur groups self its k = Some (self', its', k') →
  (∀ i, (k ≤ i < k')%nat → draws_agree rnd1 rnd2 (equipment self) i) →
  group_loop rnd2 sts rps cur groups self its k = Some (self', its', k').
Proof.
  induction groups as [|g rest IH]; intros self its k self' its' k' H Hag; simpl in *.
  { done. }
  destruct (last_trained self !! g) as [v|]; simpl in *; [|done].
  case_decide; [by apply IH|].
  destruct (_filtered self g) as [|e pool] eqn:Hp; [by apply IH|].
  destruct (random_choice rnd1 k (e :: pool)) as [choice|] eqn:Hc; simpl in H; [|done].
  assert (k < k')%nat as Hlt.
  { case_decide; [simplify_eq; lia|].
    destruct (group_loop_spec _ _ _ _ _ _ _ _ _ _ _ H) as (gs & _ & _ & _ & _ & _ & _ & _ & _ & _ & ->).
    lia. }
  assert (random_choice rnd2 k (e :: pool) = Some choice) as ->.
  { rewrite <- Hc, <- Hp. symmetry. apply (Hag k); lia. }
  simpl. case_decide; [done|].
  apply IH; [done|]. intros i Hi. apply Hag. lia.
Qed.

Lemma day_step_agree rnd1 rnd2 sts rps w d f st st' :
  day_step rnd1 sts rps w d f st = Some st' →
  (∀ i, (gs_draws st ≤ i < gs_draws st')%nat →
        draws_agree rnd1 rnd2 (equipment (gs_self st)) i) →
  day_step rnd2 sts rps w d f st = Some st'.
Proof.
  unfold day_step. intros H Hag.
  destruct (sort_groups (gs_self st) (_focus_groups f)) as [groups|]; simpl in *; [|done].
  destruct (group_loop rnd1 sts rps (gs_current_day_index st) groups (gs_self st) []
              (gs_draws st)) as [[[self' its] k']|] eqn:Hloop; simpl in H; [|done].
  rewrite (group_loop_agree rnd1 rnd2 _ _ _ _ _ _ _ _ _ _ Hloop); [done|].
  intros i Hi. apply Hag.
  destruct (mkDayPlan w d f its); simpl in H; [|done]. by simplify_eq.
Qed.

Lemma day_step_draws rnd sts rps w d f st st' :
  day_step rnd sts rps w d f st = Some st' →
  (gs_draws st ≤ gs_draws st')%nat ∧ equipment (gs_self st') = equipment (gs_self st).
Proof.
  intros H. destruct (day_step_char _ _ _ _ _ _ _ _ H)
    as (dp & _ & _ & _ & -> & (_ & _ & _ & _ & He & _) & _).
  split; [lia|done].
Qed.

Lemma day_loop_draws rnd sts rps w tpl d st st' :
  day_loop rnd sts rps w d tpl st = Some st' →
  (gs_draws st ≤ gs_draws st')%nat ∧ equipment (gs_self st') = equipment (gs_self st).
Proof.
  intros H.
  apply (day_loop_lift
           (λ s, (gs_draws st ≤ gs_draws s)%nat
                 ∧ equipment (gs_self s) = equipment (gs_self st)) rnd sts rps w)
    with (tpl := tpl) (d := d) (st := st); [|done..].
  intros d' f s s' Hstep [Hk He]. apply day_step_draws in Hstep as [? ?].
  split; [lia|congruence].
Qed.

Lemma week_loop_draws rnd sts rps ws st st' :
  week_loop rnd sts rps ws st = Some st' →
  (gs_draws st ≤ gs_draws st')%nat ∧ equipment (gs_self st') = equipment (gs_self st).
Proof.
  intros H.
  apply (week_loop_lift
           (λ s, (gs_draws st ≤ gs_draws s)%nat
                 ∧ equipment (gs_self s) = equipment (gs_self st)) rnd sts rps)
    with (ws := ws) (st := st); [|done..].
  intros w d' f s s' Hstep [Hk He]. apply day_step_draws in Hstep as [? ?].
  split; [lia|congruence].
Qed.

Lemma day_loop_agree rnd1 rnd2 sts rps w tpl : ∀ d st st',
  day_loop rnd1 sts rps w d tpl st = Some st' →
  (∀ i, (gs_draws st ≤ i < gs_draws st')%nat →
        draws_agree rnd1 rnd2 (equipment (gs_self st)) i) →
  day_loop rnd2 sts rps w d tpl st = Some st'.
Proof.
  induction tpl as [|f tpl IH]; intros d st st' H Hag; simpl in *; [done|].
  destruct (day_step rnd1 sts rps w d f st) as [st1|] eqn:H1; simpl in H; [|done].
  destruct (day_step_draws _ _ _ _ _ _ _ _ H1) as [Hk1 He1].
  destruct (day_loop_draws _ _ _ _ _ _ _ _ H) as [Hk2 _].
  rewrite (day_step_agree rnd1 rnd2 _ _ _ _ _ _ _ H1); simpl.
  - apply IH; [done|]. intros i Hi. rewrite He1. apply Hag. lia.
  - intros i Hi. apply Hag. lia.
Qed.

Lemma week_loop_agree rnd1 rnd2 sts rps ws : ∀ st st',
  week_loop rnd1 sts rps ws st = Some st' →
  (∀ i, (gs_draws st ≤ i < gs_draws st')%nat →
        draws_agree rnd1 rnd2 (equipment (gs_self st)) i) →
  week_loop rnd2 sts rps ws st = Some st'.
Proof.
  induction ws as [|w ws IH]; intros st st' H Hag; simpl in *; [done|].
  destruct (day_loop rnd1 sts rps w 0 (template (gs_self st)) st) as [st1|] eqn:H1;
    simpl in H; [|done].
  destruct (day_loop_draws _ _ _ _ _ _ _ _ H1) as [Hk1 He1].
  destruct (week_loop_draws _ _ _ _ _ _ H) as [Hk2 _].
  rewrite (day_loop_agree rnd1 rnd2 _ _ _ _ _ _ _ H1); simpl.
  - apply IH; [done|]. intros i Hi. rewrite He1. apply Hag. lia.
  - intros i Hi. apply Hag. lia.
Qed.

Lemma generate_schedule_agree cid dpw lvl gl eq weeks rnd1 rnd2 :
  ∃ sched,
    generate_schedule cid dpw lvl gl eq weeks rnd1 = Some sched
    ∧ ((∀ i, (i < total_items sched)%nat → draws_agree rnd1 rnd2 eq i) →
       generate_schedule cid dpw lvl gl eq weeks rnd2 = Some sched).
Proof.
  destruct (init_spec cid dpw lvl gl eq) as (t & _ & _ & Hinit).
  pose proof (init_well_formed _ _ _ _ _ _ Hinit) as Hwf.
  destruct (generate_total _ weeks rnd1 0%nat Hwf) as (st & Hgen & _ & Htrace).
  exists (gs_schedule st). unfold generate_schedule. rewrite Hinit. simpl.
  rewrite Hgen. split; [done|]. intros Hag.
  destruct Htrace as (_ & _ & Hdraws & _).
  unfold generate in *. destruct (_sets_reps _) as [sts rps].
  destruct (week_loop rnd1 sts rps _ _) as [st1|] eqn:Hloop; simpl in Hgen; [|done].
  injection Hgen as Hs _ Hk.
  rewrite (week_loop_agree rnd1 rnd2 _ _ _ _ _ Hloop); [simpl; by rewrite Hs|].
  simpl. intros i Hi. apply Hag. lia.
Qed.

(** X16: a call looks at the random stream only where it draws.  A
    stream that agrees with [rnd1] on the first [n] positions, [n] being
    the number of items of the schedule [rnd1] gives, gives the same
    schedule. *)
Theorem only_the_draws_made_matter cid dpw lvl gl eq weeks rnd1 rnd2 :
  ∃ sched,
    generate_schedule cid dpw lvl gl eq weeks rnd1 = Some sched
    ∧ ((∀ i, (i < total_items sched)%nat → rnd1 i = rnd2 i) →
       generate_schedule cid dpw lvl gl eq weeks rnd2 = Some sched).
Proof.
  destruct (generate_schedule_agree cid dpw lvl gl eq weeks rnd1 rnd2)
    as (sched & Hgen & Hag).
  exists sched. split; [done|]. intros Heq. apply Hag.
  intros i Hi g. unfold random_choice. by rewrite (Heq i Hi).
Qed.

Lemma only_the_draws_made_matter_witness :
  ∃ sched,
    generate_schedule "goku" 3 "beginner" "strength" "gym" 1 (λ n, n) = Some sched
    ∧ generate_schedule "goku" 3 "beginner" "strength" "gym" 1
        (λ n, if decide (n < 6)%nat then n else 0%nat) = Some sched.
Proof.
  destruct (only_the_draws_made_matter "goku" 3 "beginner" "strength" "gym" 1
              (λ n, n) (λ n, if decide (n < 6)%nat then n else 0%nat))
    as (sched & Hgen & Hsame).
  exists sched. split; [exact Hgen|]. apply Hsame.
  vm_compute in Hgen. injection Hgen as <-. intros i Hi.
  change (i < 6)%nat in Hi. by rewrite decide_True.
Defined.

Lemma small_pool_choice {A} rnd1 rnd2 i (pool : list A) :
  (length pool ≤ 1)%nat → random_choice rnd1 i pool = random_choice rnd2 i pool.
Proof.
  unfold random_choice. destruct pool as [|x [|y pool]]; intros Hlen.
  - by rewrite !lookup_nil.
  - change (length [x]) with 1%nat. by rewrite !Nat.mod_1_r.
  - simpl in Hlen. lia.
Qed.

Lemma bodyweight_pool_small g :
  (length (filtered_loop "bodyweight" g EXERCISES []) ≤ 1)%nat.
Proof.
  destruct (decide (g ∈ tracked_groups)) as [Hin|Hout].
  - unfold tracked_groups in Hin. rewrite !elem_of_cons, elem_of_nil in Hin.
    destruct Hin as [->|[->|[->|[->|[->|[]]]]]]; vm_compute; lia.
  - rewrite filtered_loop_filter. simpl.
    replace (filter _ EXERCISES) with (@nil Exercise); [simpl; lia|].
    symmetry. apply filter_nil_iff, Forall_forall. intros ex Hex [Hg _].
    apply Hout. rewrite <- Hg. by apply (proj1 (Forall_forall _ _) catalog_groups).
Qed.

(** X17: without dumbbells and gym there is nothing to draw.  For an
    equipment that is neither "gym" nor "dumbbells" every pool has at most
    one exercise, and the schedule is the same for every random stream. *)
Theorem bodyweight_plans_ignore_randomness cid dpw lvl gl eq weeks rnd1 rnd2 :
  eq ≠ "gym" → eq ≠ "dumbbells" →
  (∀ g, (length (filtered_loop eq g EXERCISES []) ≤ 1)%nat)
  ∧ ∃ sched,
      generate_schedule cid dpw lvl gl eq weeks rnd1 = Some sched
      ∧ generate_schedule cid dpw lvl gl eq weeks rnd2 = Some sched.
Proof.
  intros Hgym Hdb.
  assert (∀ g, (length (filtered_loop eq g EXERCISES []) ≤ 1)%nat) as Hsmall.
  { intros g. rewrite filtered_other_equipment by done. apply bodyweight_pool_small. }
  split; [done|].
  destruct (generate_schedule_agree cid dpw lvl gl eq weeks rnd1 rnd2)
    as (sched & Hgen & Hag).
  exists sched. split; [done|]. apply Hag.
  intros i _ g. apply small_pool_choice, Hsmall.
Qed.

Lemma bodyweight_plans_ignore_randomness_witness :
  ("bodyweight" ≠ "gym" ∧ "bodyweight" ≠ "dumbbells")
  ∧ (∀ g, (length (filtered_loop "bodyweight" g EXERCISES []) ≤ 1)%nat)
  ∧ ∃ sched,
      generate_schedule "asta" 5 "beginner" "strength" "bodyweight" 2 (λ n, n) = Some sched
      ∧ generate_schedule "asta" 5 "beginner" "strength" "bodyweight" 2 (λ n, 7 * n)%nat
        = Some sched.
Proof.
  assert ("bodyweight" ≠ "gym") as H1 by done.
  assert ("bodyweight" ≠ "dumbbells") as H2 by done.
  split; [by split|].
  exact (bodyweight_plans_ignore_randomness "asta" 5 "beginner" "strength" "bodyweight" 2
           (λ n, n) (λ n, 7 * n)%nat H1 H2).
Defined.

(** ** What a call changes in the object *)

(** X18: [generate] writes nothing but values of [last_trained].  The
    character, day count, level, goal, equipment and template of the
    object are the same after the call, and [last_trained] has the same
    keys: no entry is added and none is removed. *)
Theorem generate_only_updates_last_trained self weeks rnd k :
  well_formed self →
  ∃ sched self' k',
    generate self weeks rnd k = Some (sched, self', k')
    ∧ same_config self self'
    ∧ ∀ g, is_Some (last_trained self' !! g) ↔ is_Some (last_trained self !! g).
Proof.
  intros Hwf. destruct (generate_total self weeks rnd k Hwf) as (st & Hgen & _ & Htrace).
  exists (gs_schedule st), (gs_self st), (gs_draws st). split; [done|].
  destruct Htrace as (Hcfg & _ & _ & Hlast & Hdays). split; [done|].
  assert (∀ (i : nat) dp g, gs_schedule st !! i = Some dp → trained_on dp g →
            is_Some (last_trained self !! g)) as Hkey.
  { intros i. induction (lt_wf i) as [i _ IH]. intros dp g Hlk Htr.
    apply (Hdays i dp g Hlk) in Htr as (_ & _ & v & Hr & _).
    destruct (recorded_cases (take i (gs_schedule st)) g (last_trained self !! g))
      as [[Hr' _]|(j & dp0 & _ & Hlk0 & Htr0 & _)].
    - rewrite <- Hr', Hr. by eexists.
    - apply lookup_take_Some in Hlk0 as [Hlk0 Hlt]. by apply (IH j Hlt dp0). }
  intros g. rewrite Hlast.
  destruct (recorded_cases (gs_schedule st) g (last_trained self !! g))
    as [[-> _]|(j & dp & -> & Hlk & Htr & _)]; [done|].
  split; [intros _; by eapply Hkey|by eexists].
Qed.

Lemma generate_only_updates_last_trained_witness :
  well_formed demo_carried_plan ∧
  ∃ sched self' k',
    generate demo_carried_plan 3 (λ n, n) 0 = Some (sched, self', k')
    ∧ same_config demo_carried_plan self'
    ∧ ∀ g, is_Some (last_trained self' !! g)
           ↔ is_Some (last_trained demo_carried_plan !! g).
Proof.
  assert (well_formed demo_carried_plan) as Hwf.
  { split; [repeat constructor; by eexists|compute_done]. }
  split; [exact Hwf|].
  exact (generate_only_updates_last_trained demo_carried_plan 3 (λ n, n) 0%nat Hwf).
Defined.

(** ** [_make_template] outside the clamped range *)



Example make_template_edge_cases :
  _make_template "goku" (-2) = Some ["push"; "pull"; "legs"]
  ∧ _make_template "goku" 0 = Some []
  ∧ _make_template "saitama" 8
    = Some ["full"; "full"; "full"; "full"; "full"; "full"; "full"; "full"].
Proof. by split_and!. Qed.
